(** * ATen [Tensor] handle: ownership, borrowing and metadata queries

    A shallow embedding of [aten/src/ATen/templates/TensorBody.h].

    The handle [at::Tensor] wraps a [c10::intrusive_ptr<TensorImpl,
    UndefinedTensorImpl>].  Reference counts live in the pointed-to object,
    so the embedding threads an explicit store of backing objects through
    every operation; C++ exceptions are an error result that keeps the
    store reached at the throw. *)

From Stdlib Require Import ZArith String List Bool Lia.
From stdpp Require Import base option gmap pretty.

Local Open Scope Z_scope.

(** ** c10: errors, enums, the backing object and the intrusive pointer *)

Module c10.

(** Error kinds of the specification (section 7).  [InvalidArgument] stands
    for a failed [TORCH_CHECK] on an argument, which section 7 does not name;
    [UndefinedBehavior] marks a read that C++ leaves undefined (a pointer
    whose target is gone, an [ArrayRef] index past the end). *)
Inductive ErrorKind : Type :=
| UndefinedState
| InvariantViolation
| IndexOutOfRange
| UnsupportedOperation
| ViewHasNoBase
| InvalidArgument
| UndefinedBehavior.

(** A thrown exception: its kind and the message of the throw site. *)
Inductive exception : Type :=
| Exn (kind : ErrorKind) (what : string).

Arguments Exn kind what%_string.

Inductive result (A : Type) : Type :=
| Ok (a : A)
| Err (e : exception).

Arguments Ok {A} a.
Arguments Err {A} e.

(** [c10::MemoryFormat] and [c10::Layout]. *)
Inductive MemoryFormat : Type :=
| Contiguous
| Preserve
| ChannelsLast
| ChannelsLast3d.

Inductive Layout : Type :=
| Strided
| Sparse
| SparseCsr
| Mkldnn.

Definition Layout_eqb (a b : Layout) : bool :=
  match a, b with
  | Strided, Strided | Sparse, Sparse
  | SparseCsr, SparseCsr | Mkldnn, Mkldnn => true
  | _, _ => false
  end.

(** 64-bit machine integers: [int64_t] values are kept as [Z]; [size_t]
    arithmetic wraps modulo [2^64]. *)
Definition size_t_modulus : Z := 2 ^ 64.
Definition int64_max : Z := 2 ^ 63 - 1.

Definition to_size_t (z : Z) : Z := z mod size_t_modulus.

Definition size_t_mul (a b : Z) : Z :=
  (to_size_t a * to_size_t b) mod size_t_modulus.

(** Modelled from the spec: the Backing Object ([c10::TensorImpl], whose
    header is not part of these sources), as the record of what the handle
    reads from it.  Each field is named after the accessor the handle calls
    through [impl_->]. *)
Module TensorImpl.

Record t : Type := mk {
  sizes : list Z;
  strides : list Z;
  storage_offset : Z;
  numel : Z;
  itemsize : Z;
  layout : Layout;
  is_sparse : bool;
  is_mkldnn : bool;
  is_contiguous : MemoryFormat -> bool;
  is_strides_like_channels_last : bool;
  is_strides_like_channels_last_3d : bool;
  has_storage : bool;
  requires_grad : bool
}.

(** [dim()] is the number of axes of the shape. *)
Definition dim (impl : t) : Z := Z.of_nat (List.length (sizes impl)).

End TensorImpl.

(** A raw [TensorImpl*]: [None] is [nullptr]. *)
Definition raw_ptr : Type := option positive.

(** Modelled from the spec: the object an intrusive pointer points to
    ([c10::intrusive_ptr_target], not part of these sources), after the
    Ownership Counter of section 2: the two counters embedded in the
    Backing Object, and the payload. *)
Record intrusive_target : Type := mk_target {
  refcount_ : Z;
  weakcount_ : Z;
  object_ : TensorImpl.t
}.

(** [c10::intrusive_ptr<TensorImpl, UndefinedTensorImpl>].  The header
    c10/util/intrusive_ptr.h is not part of these sources: every operation
    below is modelled from the spec, after the Ownership Counter and the
    Handle life cycle of sections 2, 3 and 4.1.  [weakcount_] counts the
    weak holders. *)
Module intrusive_ptr.

Record t : Type := mk { target_ : raw_ptr }.

Definition null : t := mk None.

Definition get (p : t) : raw_ptr := target_ p.

(** Modelled from the spec: [explicit operator bool], whether the pointer
    is non-null. *)
Definition to_bool (p : t) : bool :=
  match target_ p with Some _ => true | None => false end.

(** Modelled from the spec: [operator==], identity of the target
    (section 4.1, equality of identity). *)
Definition eqb (p q : t) : bool :=
  match target_ p, target_ q with
  | Some a, Some b => Pos.eqb a b
  | None, None => true
  | _, _ => false
  end.

(** Modelled from the spec: [reclaim(raw)] takes over a raw reference as it
    is, the count is not touched (section 4.1, reclaim a +0 reference). *)
Definition reclaim (raw : raw_ptr) (h : gmap positive intrusive_target)
  : t * gmap positive intrusive_target :=
  (mk raw, h).

(** Modelled from the spec: [release()] gives the raw reference back and
    leaves the pointer null, the count is not touched (section 4.1, release
    without decrementing). *)
Definition release (p : t) (h : gmap positive intrusive_target)
  : raw_ptr * t * gmap positive intrusive_target :=
  (target_ p, null, h).

(** Modelled from the spec: copy construction is one increment of the
    strong count (section 4.1, copy construct). *)
Definition retain_ (p : t) (h : gmap positive intrusive_target)
  : gmap positive intrusive_target :=
  match target_ p with
  | Some a =>
      match h !! a with
      | Some o => <[a := mk_target (refcount_ o + 1) (weakcount_ o) (object_ o)]> h
      | None => h
      end
  | None => h
  end.

Definition copy (p : t) (h : gmap positive intrusive_target)
  : t * gmap positive intrusive_target :=
  (p, retain_ p h).

(** Modelled from the spec: move construction steals the reference, the
    source becomes null and the count is not touched (section 4.1, move
    construct). *)
Definition move (p : t) : t * t := (p, null).

(** Modelled from the spec: destruction and [reset()] are one decrement of
    the strong count; the object is freed when the strong count reaches zero
    and no weak holder remains; nothing happens on null (section 4.1,
    destroy). *)
Definition reset_ (p : t) (h : gmap positive intrusive_target)
  : gmap positive intrusive_target :=
  match target_ p with
  | Some a =>
      match h !! a with
      | Some o =>
          let rc := refcount_ o - 1 in
          if (rc =? 0) && (weakcount_ o =? 0)
          then delete a h
          else <[a := mk_target rc (weakcount_ o) (object_ o)]> h
      | None => h
      end
  | None => h
  end.

(** Modelled from the spec: [use_count()] and [weak_use_count()], the
    current counts (section 4.1, reference-count introspection).  The handle
    declares its two wrappers [noexcept], so they answer on null too: with
    zero. *)
Definition use_count (p : t) (h : gmap positive intrusive_target) : Z :=
  match target_ p with
  | Some a => match h !! a with Some o => refcount_ o | None => 0 end
  | None => 0
  end.

Definition weak_use_count (p : t) (h : gmap positive intrusive_target) : Z :=
  match target_ p with
  | Some a => match h !! a with Some o => weakcount_ o | None => 0 end
  | None => 0
  end.

End intrusive_ptr.

(** Modelled from the spec: [c10::maybe_wrap_dim] (c10/core/WrapDimMinimal.h
    is not part of these sources), after section 4.3:
    [effective_index = index < 0 ? index + rank : index], failing with
    IndexOutOfRange when the result is outside [[0, rank)].  With
    [wrap_scalar] a rank of zero counts as one; the handle always passes
    [false]. *)
Definition maybe_wrap_dim (dim dim_post_expr : Z) (wrap_scalar : bool)
  : result Z :=
  let rank :=
    if (dim_post_expr <=? 0) && wrap_scalar then 1 else dim_post_expr in
  let effective_index := if dim <? 0 then dim + rank else dim in
  if (0 <=? effective_index) && (effective_index <? rank)
  then Ok effective_index
  else Err (Exn IndexOutOfRange "Dimension out of range").

End c10.

(** ** at: the handle *)

Module ATen.
Import c10.

(** [class Tensor]: its only data member is [impl_]. *)
Record Tensor : Type := mkTensor { impl_ : intrusive_ptr.t }.

(** An operation handed over to the dispatcher, as recorded in the trace of
    forwarded calls. *)
Inductive DispatchCall : Type :=
| call_contiguous (self : Tensor) (memory_format : MemoryFormat)
| call_backward (self : Tensor) (inputs : list Tensor)
    (gradient : option Tensor) (keep_graph : option bool)
    (create_graph : bool).

(** The program state: the store of backing objects with their counters, and
    the calls forwarded to the dispatcher so far, oldest first. *)
Record State : Type := mkState {
  heap : gmap positive intrusive_target;
  dispatched : list DispatchCall
}.

Definition set_heap (h : gmap positive intrusive_target) (s : State) : State :=
  mkState h (dispatched s).

Definition log_call (c : DispatchCall) (s : State) : State :=
  mkState (heap s) (dispatched s ++ [c]).

(** State and exceptions: a computation returns a value or throws, and in
    both cases leaves a state behind. *)
Definition M (A : Type) : Type := State -> result A * State.

Definition ret {A : Type} (a : A) : M A := fun s => (Ok a, s).

Definition throw {A : Type} (e : exception) : M A := fun s => (Err e, s).

Definition bind {A B : Type} (m : M A) (k : A -> M B) : M B :=
  fun s =>
    match m s with
    | (Ok a, s') => k a s'
    | (Err e, s') => (Err e, s')
    end.

Notation "'let*' x ':=' m 'in' k" := (bind m (fun x => k))
  (at level 10, x pattern, m at level 100, k at level 200).

Notation "m1 ';;' m2" := (bind m1 (fun _ => m2))
  (at level 100, m2 at level 200, right associativity).

(** Modelled from the spec: [TORCH_CHECK(cond, msg)] (the macro is defined
    in c10/util/Exception.h, not part of these sources) throws when [cond]
    is false; [kind] is the error kind of section 7 that the throw site
    stands for. *)
Definition TORCH_CHECK (cond : bool) (kind : ErrorKind) (msg : string)
  : M unit :=
  if cond then ret tt else throw (Exn kind msg).

Arguments TORCH_CHECK cond kind msg%_string.

(** What the handle needs from code outside this header: the body of
    [Tensor::enforce_invariants] (declared here, defined elsewhere), the
    kernels the dispatcher selects for [__dispatch_contiguous] and
    [_backward], and the closed-form channels-last strides of
    c10/core/MemoryFormat.h. *)
Class Collaborators : Type := {
  invariants_hold : Tensor -> gmap positive intrusive_target -> result unit;
  contiguous_kernel :
    Tensor -> MemoryFormat -> gmap positive intrusive_target ->
    result Tensor * gmap positive intrusive_target;
  backward_kernel :
    Tensor -> list Tensor -> option Tensor -> option bool -> bool ->
    gmap positive intrusive_target ->
    result unit * gmap positive intrusive_target;
  get_channels_last_strides_2d : list Z -> list Z;
  get_channels_last_strides_3d : list Z -> list Z
}.

Section Handle.
Context {collab : Collaborators}.

(** *** Construction, copy, move, destruction *)

(** [Tensor()]. *)
Definition Tensor_default : Tensor := mkTensor intrusive_ptr.null.

(** [explicit Tensor(unsafe_borrow_t, const Tensor& rhs)]: a handle at +0. *)
Definition Tensor_unsafe_borrow (rhs : Tensor) : M Tensor :=
  fun s =>
    let '(p, h) :=
      intrusive_ptr.reclaim (intrusive_ptr.get (impl_ rhs)) (heap s) in
    (Ok (mkTensor p), set_heap h s).

(** [explicit Tensor(c10::intrusive_ptr<TensorImpl, UndefinedTensorImpl>)]. *)
Definition Tensor_from_impl (tensor_impl : intrusive_ptr.t) : M Tensor :=
  let '(p, _) := intrusive_ptr.move tensor_impl in
  match intrusive_ptr.get p with
  | None =>
      throw (Exn InvariantViolation "TensorImpl with nullptr is not supported")
  | Some _ => ret (mkTensor p)
  end.

(** [Tensor(const Tensor&) = default]. *)
Definition Tensor_copy (x : Tensor) : M Tensor :=
  fun s =>
    let '(p, h) := intrusive_ptr.copy (impl_ x) (heap s) in
    (Ok (mkTensor p), set_heap h s).

(** [Tensor(Tensor&&) = default]: the new handle and what is left of the
    source. *)
Definition Tensor_move (x : Tensor) : Tensor * Tensor :=
  let '(p, q) := intrusive_ptr.move (impl_ x) in (mkTensor p, mkTensor q).

(** The implicit destructor: destroys [impl_]. *)
Definition Tensor_dtor (x : Tensor) : M unit :=
  fun s => (Ok tt, set_heap (intrusive_ptr.reset_ (impl_ x) (heap s)) s).

(** A local handle [r] is destroyed when an exception leaves its scope. *)
Definition unwinding {A : Type} (r : Tensor) (m : M A) : M A :=
  fun s =>
    match m s with
    | (Ok a, s') => (Ok a, s')
    | (Err e, s') =>
        (Err e, set_heap (intrusive_ptr.reset_ (impl_ r) (heap s')) s')
    end.

(** [void enforce_invariants()], declared in the class and defined outside
    these sources: what it checks is the collaborator's [invariants_hold].
    Section 4.1 has it as a check, so it reads the state and leaves it as
    it is. *)
Definition enforce_invariants (self : Tensor) : M unit :=
  fun s =>
    match invariants_hold self (heap s) with
    | Ok _ => (Ok tt, s)
    | Err e => (Err e, s)
    end.

(** [static Tensor wrap_tensor_impl(intrusive_ptr)]. *)
Definition wrap_tensor_impl (tensor_impl : intrusive_ptr.t) : M Tensor :=
  let* r := Tensor_from_impl tensor_impl in
  unwinding r (enforce_invariants r ;; ret r).

(** *** Access to the backing object *)

(** Modelled from the spec: [impl_->], the read of the backing object that
    every metadata query starts with (the null object
    [UndefinedTensorImpl] is not part of these sources).  After section 4.1
    and section 7: a query that needs a non-null handle fails with
    UndefinedState on the null handle. *)
Definition deref (self : Tensor) : M TensorImpl.t :=
  fun s =>
    match intrusive_ptr.get (impl_ self) with
    | None =>
        (Err (Exn UndefinedState "operation on an undefined Tensor"), s)
    | Some a =>
        match heap s !! a with
        | Some o => (Ok (object_ o), s)
        | None => (Err (Exn UndefinedBehavior "dangling TensorImpl"), s)
        end
    end.

(** Modelled from the spec: [ArrayRef<int64_t>::operator[]]
    (c10/util/ArrayRef.h is not part of these sources), the array access of
    section 4.3; an index outside the array is undefined in C++. *)
Definition ArrayRef_at (a : list Z) (i : Z) : M Z :=
  if i <? 0
  then throw (Exn UndefinedBehavior "ArrayRef: invalid index")
  else
    match a !! Z.to_nat i with
    | Some v => ret v
    | None => throw (Exn UndefinedBehavior "ArrayRef: invalid index")
    end.

Definition dim (self : Tensor) : M Z :=
  let* impl := deref self in ret (TensorImpl.dim impl).

Definition storage_offset (self : Tensor) : M Z :=
  let* impl := deref self in ret (TensorImpl.storage_offset impl).

Definition sizes (self : Tensor) : M (list Z) :=
  let* impl := deref self in ret (TensorImpl.sizes impl).

Definition strides (self : Tensor) : M (list Z) :=
  let* impl := deref self in ret (TensorImpl.strides impl).

Definition is_contiguous (self : Tensor) (memory_format : MemoryFormat)
  : M bool :=
  let* impl := deref self in ret (TensorImpl.is_contiguous impl memory_format).

Definition defined (self : Tensor) : bool := intrusive_ptr.to_bool (impl_ self).

Definition reset (self : Tensor) : M Tensor :=
  fun s =>
    (Ok (mkTensor intrusive_ptr.null),
     set_heap (intrusive_ptr.reset_ (impl_ self) (heap s)) s).

Definition is_same (self other : Tensor) : bool :=
  intrusive_ptr.eqb (impl_ self) (impl_ other).

Definition use_count (self : Tensor) (s : State) : Z :=
  intrusive_ptr.use_count (impl_ self) (heap s).

Definition weak_use_count (self : Tensor) (s : State) : Z :=
  intrusive_ptr.weak_use_count (impl_ self) (heap s).

Definition unsafeGetTensorImpl (self : Tensor) : raw_ptr :=
  intrusive_ptr.get (impl_ self).

(** [unsafeReleaseTensorImpl()]: the raw pointer and the handle it leaves. *)
Definition unsafeReleaseTensorImpl (self : Tensor) : M (raw_ptr * Tensor) :=
  fun s =>
    let '(raw, p, h) := intrusive_ptr.release (impl_ self) (heap s) in
    (Ok (raw, mkTensor p), set_heap h s).

(** *** Metadata and backend predicates *)

Definition size (self : Tensor) (d : Z) : M Z :=
  let* rank := dim self in
  match maybe_wrap_dim d rank false with
  | Err e => throw e
  | Ok d' => let* a := sizes self in ArrayRef_at a d'
  end.

Definition stride (self : Tensor) (d : Z) : M Z :=
  let* rank := dim self in
  match maybe_wrap_dim d rank false with
  | Err e => throw e
  | Ok d' => let* a := strides self in ArrayRef_at a d'
  end.

Definition numel (self : Tensor) : M Z :=
  let* impl := deref self in ret (TensorImpl.numel impl).

Definition itemsize (self : Tensor) : M Z :=
  let* impl := deref self in ret (TensorImpl.itemsize impl).

(** [layout() const noexcept]; it is only used on defined handles below. *)
Definition layout (self : Tensor) : M Layout :=
  let* impl := deref self in ret (TensorImpl.layout impl).

Definition is_sparse (self : Tensor) : M bool :=
  let* impl := deref self in ret (TensorImpl.is_sparse impl).

Definition is_mkldnn (self : Tensor) : M bool :=
  let* impl := deref self in ret (TensorImpl.is_mkldnn impl).

Definition requires_grad (self : Tensor) : M bool :=
  let* impl := deref self in ret (TensorImpl.requires_grad impl).

Definition has_storage (self : Tensor) : M bool :=
  if defined self
  then let* impl := deref self in ret (TensorImpl.has_storage impl)
  else ret false.

(** [operator==] of a [std::vector<int64_t>] and an [IntArrayRef]. *)
Definition IntArrayRef_eqb (a b : list Z) : bool :=
  bool_decide (a = b).

Definition suggest_memory_format (self : Tensor)
    (channels_last_strides_exact_match : bool) : M MemoryFormat :=
  let* mkldnn := is_mkldnn self in
  let* in_branch :=
    if negb mkldnn
    then let* sparse := is_sparse self in ret (negb sparse)
    else ret false in
  if in_branch : bool then
    let* impl := deref self in
    if TensorImpl.is_strides_like_channels_last impl then
      let* exact :=
        if negb channels_last_strides_exact_match then ret true
        else
          let* sz := sizes self in
          let* st := strides self in
          ret (IntArrayRef_eqb (get_channels_last_strides_2d sz) st) in
      if exact : bool then ret ChannelsLast else ret Contiguous
    else
      let* impl3 := deref self in
      if TensorImpl.is_strides_like_channels_last_3d impl3 then
        let* exact :=
          if negb channels_last_strides_exact_match then ret true
          else
            let* sz := sizes self in
            let* st := strides self in
            ret (IntArrayRef_eqb (get_channels_last_strides_3d sz) st) in
        if exact : bool then ret ChannelsLast3d else ret Contiguous
      else ret Contiguous
  else ret Contiguous.

Definition nbytes (self : Tensor) : M Z :=
  let* l := layout self in
  TORCH_CHECK (negb (Layout_eqb l Sparse)) UnsupportedOperation
    "nbytes is not defined for sparse tensors.  If you want the size of the constituent tensors, add the nbytes of the indices and values.  If you want the size of the  equivalent dense tensor, multiply numel() by element_size()" ;;
  let* n := numel self in
  let* w := itemsize self in
  ret (size_t_mul n w).

(** *** Calls forwarded to the dispatcher *)

(** The generated method [__dispatch_contiguous]: the call is recorded and
    the selected kernel runs on the store. *)
Definition __dispatch_contiguous (self : Tensor) (memory_format : MemoryFormat)
  : M Tensor :=
  fun s =>
    let s1 := log_call (call_contiguous self memory_format) s in
    let '(r, h) := contiguous_kernel self memory_format (heap s1) in
    (r, set_heap h s1).

(** The method [_backward], defined by the autograd collaborator. *)
Definition _backward (self : Tensor) (inputs : list Tensor)
    (gradient : option Tensor) (keep_graph : option bool)
    (create_graph : bool) : M unit :=
  fun s =>
    let s1 :=
      log_call (call_backward self inputs gradient keep_graph create_graph) s in
    let '(r, h) :=
      backward_kernel self inputs gradient keep_graph create_graph (heap s1) in
    (r, set_heap h s1).

Definition contiguous (self : Tensor) (memory_format : MemoryFormat)
  : M Tensor :=
  let* c := is_contiguous self memory_format in
  if c : bool then Tensor_copy self
  else __dispatch_contiguous self memory_format.

Definition backward (self gradient : Tensor) (retain_graph : option bool)
    (create_graph : bool) (inputs : option (list Tensor)) : M unit :=
  match inputs with
  | Some value =>
      TORCH_CHECK (0 <? Z.of_nat (List.length value)) InvalidArgument
        "'inputs' argument to backward cannot be empty" ;;
      _backward self value (Some gradient) retain_graph create_graph
  | None => _backward self [] (Some gradient) retain_graph create_graph
  end.

End Handle.

(** *** Assignment *)

(** [Tensor& operator=(const Tensor& x) &]: [impl_ = x.impl_] retains the
    new target and releases the old one. *)
Definition assign_copy (self x : Tensor) : M Tensor :=
  fun s =>
    let '(p, h) := intrusive_ptr.copy (impl_ x) (heap s) in
    (Ok (mkTensor p), set_heap (intrusive_ptr.reset_ (impl_ self) h) s).

(** [Tensor& operator=(Tensor&& x) &]: [impl_ = std::move(x.impl_)] steals
    the new target and releases the old one; the result is the assigned
    handle and what is left of [x]. *)
Definition assign_move (self x : Tensor) : M (Tensor * Tensor) :=
  fun s =>
    let '(p, q) := intrusive_ptr.move (impl_ x) in
    (Ok (mkTensor p, mkTensor q),
     set_heap (intrusive_ptr.reset_ (impl_ self) (heap s)) s).

(** *** [c10::MaybeOwnedTraits<at::Tensor>] *)

Module MaybeOwnedTraits.

Definition createBorrow (from : Tensor) : M Tensor :=
  Tensor_unsafe_borrow from.

(** The assigned [lhs]. *)
Definition assignBorrow (lhs rhs : Tensor) : M Tensor :=
  let* released := unsafeReleaseTensorImpl lhs in
  let* tmp := Tensor_unsafe_borrow rhs in
  let* assigned := assign_move (snd released) tmp in
  Tensor_dtor (snd assigned) ;;
  ret (fst assigned).

(** What is left of [toDestroy]. *)
Definition destroyBorrow (toDestroy : Tensor) : M Tensor :=
  let* released := unsafeReleaseTensorImpl toDestroy in
  ret (snd released).

Definition referenceFromBorrow (borrow : Tensor) : Tensor := borrow.

Definition debugBorrowIsValid (borrow : Tensor) : bool := true.

End MaybeOwnedTraits.

(** *** [c10::MaybeOwned<Tensor>], the Borrowed View *)

(** [c10::MaybeOwned<Tensor>].  The header c10/util/MaybeOwned.h is not part
    of these sources: the definitions below are modelled from the spec,
    after section 3.  The borrowed payload is built and torn down through
    the traits above, which are part of the sources. *)
Module MaybeOwned.

(** Modelled from the spec: the Borrowed View of section 3, a tag,
    refers-to-existing or owns-a-value, and the payload matching the tag. *)
Inductive t : Type :=
| is_borrowed (borrow_ : Tensor)
| is_owned (own_ : Tensor).

(** Modelled from the spec: the tag of the view. *)
Definition isBorrowed (v : t) : bool :=
  match v with is_borrowed _ => true | is_owned _ => false end.

(** Modelled from the spec: [borrowed(const T&)], the view in
    refers-to-existing mode, made with [createBorrow]. *)
Definition borrowed (x : Tensor) : M t :=
  let* b := MaybeOwnedTraits.createBorrow x in ret (is_borrowed b).

(** Modelled from the spec: [owned(T&&)], the view in owns-a-value mode;
    the value is moved in. *)
Definition owned (x : Tensor) : M t :=
  ret (is_owned (fst (Tensor_move x))).

(** Modelled from the spec: [operator*], the uniform read interface. *)
Definition get (v : t) : Tensor :=
  match v with
  | is_borrowed b => MaybeOwnedTraits.referenceFromBorrow b
  | is_owned x => x
  end.

(** Modelled from the spec: the destructor.  An owned payload is destroyed
    as a handle, a borrowed one is handed to [destroyBorrow] and what it
    leaves is destroyed. *)
Definition destroy (v : t) : M unit :=
  match v with
  | is_borrowed b =>
      let* rest := MaybeOwnedTraits.destroyBorrow b in Tensor_dtor rest
  | is_owned x => Tensor_dtor x
  end.

End MaybeOwned.

Section ExpectContiguous.
Context {collab : Collaborators}.

(** [c10::MaybeOwned<Tensor> expect_contiguous(MemoryFormat) const &]. *)
Definition expect_contiguous (self : Tensor) (memory_format : MemoryFormat)
  : M MaybeOwned.t :=
  let* c := is_contiguous self memory_format in
  if c : bool then MaybeOwned.borrowed self
  else
    let* r := __dispatch_contiguous self memory_format in
    MaybeOwned.owned r.

End ExpectContiguous.

(** *** Ref-qualified overloads *)

(** The object expression of a member call: its value category, and whether
    its type is const-qualified. *)
Inductive ValueCategory : Type := lvalue | rvalue.

Record ObjectExpression : Type := mkObject {
  category : ValueCategory;
  is_const : bool
}.

(** A member declaration with a ref-qualifier: whether it is
    const-qualified, its ref-qualifier, [&] or [&&], and whether it is
    defined as deleted. *)
Inductive RefQualifier : Type := lvalue_ref | rvalue_ref.

Record MemberOverload : Type := mkOverload {
  const_qualified : bool;
  qualifier : RefQualifier;
  deleted : bool
}.

(** The two declarations of [expect_contiguous]: [const &], and
    [&& = delete]. *)
Definition expect_contiguous_overloads : list MemberOverload :=
  [ mkOverload true lvalue_ref false; mkOverload false rvalue_ref true ].

(** Whether the implicit object parameter of [o] can bind to the object
    expression: a member that is not const-qualified needs an object that
    is not const; a [&&] member needs an rvalue; a [&] member needs an
    lvalue, unless it is [const &], which binds to an rvalue too. *)
Definition viable (obj : ObjectExpression) (o : MemberOverload) : bool :=
  (const_qualified o || negb (is_const obj))
  && match qualifier o, category obj with
     | lvalue_ref, lvalue => true
     | lvalue_ref, rvalue => const_qualified o
     | rvalue_ref, rvalue => true
     | rvalue_ref, lvalue => false
     end.

(** How far the binding is from exact, for the ranking of viable members:
    binding an rvalue to [&&] is better than binding it to [const &], and
    a binding that adds no [const] is better than one that does. *)
Definition cost (obj : ObjectExpression) (o : MemberOverload) : nat :=
  ((match qualifier o, category obj with
    | lvalue_ref, rvalue => 2
    | _, _ => 0
    end)
   + (if const_qualified o && negb (is_const obj) then 1 else 0))%nat.

(** Overload resolution: the viable member that is better than every other
    viable one, when there is exactly one such. *)
Definition select_overload (obj : ObjectExpression)
    (os : list MemberOverload) : option MemberOverload :=
  let candidates := List.filter (viable obj) os in
  match
    List.filter
      (fun o => forallb (fun o' => (cost obj o <=? cost obj o')%nat)
                  candidates)
      candidates
  with
  | [o] => Some o
  | _ => None
  end.

(** A call compiles when overload resolution selects a declaration, and that
    declaration is not deleted. *)
Definition call_compiles (obj : ObjectExpression)
    (os : list MemberOverload) : bool :=
  match select_overload obj os with
  | Some o => negb (deleted o)
  | None => false
  end.

(** *** Hooks *)

Section Hooks.

(** What a user hook can observe and change besides its argument. *)
Variable W : Type.

(** [std::function<Tensor(const Tensor&)>], and a hook returning [void]. *)
Definition Hook : Type := Tensor -> W -> Tensor * W.
Definition VoidHook : Type := Tensor -> W -> W.

(** Modelled from the spec: [_register_hook] (declared here, defined by the
    autograd side, not part of these sources), after section 4.4: the hooks
    of a backing object are kept in insertion order, keyed by a
    monotonically increasing position token. *)
Definition _register_hook (self : Tensor) (hook : Hook)
    (table : gmap positive (list (option Hook)))
  : result nat * gmap positive (list (option Hook)) :=
  match unsafeGetTensorImpl self with
  | None =>
      (Err (Exn UndefinedState "operation on an undefined Tensor"), table)
  | Some a =>
      let hooks := default [] (table !! a) in
      (Ok (List.length hooks), <[a := hooks ++ [Some hook]]> table)
  end.

(** Modelled from the spec: [remove_hook(pos)], removal by position token;
    a token that is not there is left alone (section 4.4). *)
Definition remove_hook (self : Tensor) (pos : nat)
    (table : gmap positive (list (option Hook)))
  : gmap positive (list (option Hook)) :=
  match unsafeGetTensorImpl self with
  | None => table
  | Some a =>
      match table !! a with
      | Some hooks => <[a := <[pos := None]> hooks]> table
      | None => table
      end
  end.

(** [register_hook], for a hook returning [void]: the stored function calls
    [fn(grad)] and returns [Tensor()]. *)
Definition void_hook_wrapper (fn : VoidHook) : Hook :=
  fun grad w => let w' := fn grad w in (Tensor_default, w').

Definition register_hook_void (self : Tensor) (hook : VoidHook)
    (table : gmap positive (list (option Hook)))
  : result nat * gmap positive (list (option Hook)) :=
  _register_hook self (void_hook_wrapper hook) table.

(** [register_hook], for a hook returning [Tensor]. *)
Definition register_hook_var (self : Tensor) (hook : Hook)
    (table : gmap positive (list (option Hook)))
  : result nat * gmap positive (list (option Hook)) :=
  _register_hook self hook table.

(** Modelled from the spec: the invocation of the hooks of a handle when a
    gradient for it is computed (done by the autograd engine, not part of
    these sources), after section 4.4: hooks run in registration order, and
    a hook that returns a replacement makes every later hook see the
    replacement.  A stored hook returns a handle in all cases; an undefined
    one is how a hook without replacement, such as the wrapper of a [void]
    hook, answers.  The result is the gradient after the last hook. *)
Fixpoint run_hooks (hooks : list (option Hook)) (value : Tensor) (w : W)
  : Tensor * W :=
  match hooks with
  | [] => (value, w)
  | None :: rest => run_hooks rest value w
  | Some hook :: rest =>
      let '(res, w') := hook value w in
      run_hooks rest (if defined res then res else value) w'
  end.

End Hooks.

(** The object a defined handle refers to, when it is alive in [s]. *)
Definition backing_object (self : Tensor) (s : State) : option TensorImpl.t :=
  match unsafeGetTensorImpl self with
  | Some a => object_ <$> heap s !! a
  | None => None
  end.

(** *** The query surface *)

Section Queries.
Context {collab : Collaborators}.







End Queries.

(** *** The dispatcher's side of [contiguous] *)

(** Section 4.2 on what the dispatcher returns for a handle whose object
    does not have the requested layout: a newly materialized object with
    that layout, in a fresh owning handle; the store is otherwise left as it
    was. *)
Definition materializes_conforming (collab : Collaborators) : Prop :=
  forall (self : Tensor) (f : MemoryFormat)
         (h : gmap positive intrusive_target) (a : positive)
         (o : intrusive_target),
    unsafeGetTensorImpl self = Some a ->
    h !! a = Some o ->
    TensorImpl.is_contiguous (object_ o) f = false ->
    exists (a' : positive) (o' : intrusive_target),
      contiguous_kernel self f h =
        (Ok (mkTensor (intrusive_ptr.mk (Some a'))), <[a' := o']> h) /\
      h !! a' = None /\
      refcount_ o' = 1 /\
      TensorImpl.is_contiguous (object_ o') f = true.

End ATen.

(** ** A reference implementation of the collaborators *)

Module Reference.
Import c10 ATen.

(** Modelled from the spec: the shape/stride consistency of the data model
    (section 3): as many strides as sizes, and no negative size. *)
Definition shape_and_strides_agree (impl : TensorImpl.t) : bool :=
  (List.length (TensorImpl.sizes impl) =? List.length (TensorImpl.strides impl))%nat
  && forallb (fun n => 0 <=? n) (TensorImpl.sizes impl).

Definition invariants_hold (self : Tensor)
    (h : gmap positive intrusive_target) : result unit :=
  match unsafeGetTensorImpl self with
  | None =>
      Err (Exn InvariantViolation "TensorImpl with nullptr is not supported")
  | Some a =>
      match h !! a with
      | Some o =>
          if shape_and_strides_agree (object_ o) then Ok tt
          else Err (Exn InvariantViolation "sizes and strides disagree")
      | None => Err (Exn UndefinedBehavior "dangling TensorImpl")
      end
  end.

Definition MemoryFormat_eqb (a b : MemoryFormat) : bool :=
  match a, b with
  | Contiguous, Contiguous | Preserve, Preserve
  | ChannelsLast, ChannelsLast | ChannelsLast3d, ChannelsLast3d => true
  | _, _ => false
  end.

(** Modelled from the spec: the object a contiguous kernel builds from
    [impl] (section 4.2, a newly materialized, layout-conforming Backing
    Object): same metadata, and the layout [f] now holds. *)
Definition materialize (impl : TensorImpl.t) (f : MemoryFormat)
  : TensorImpl.t :=
  TensorImpl.mk
    (TensorImpl.sizes impl) (TensorImpl.strides impl) 0
    (TensorImpl.numel impl) (TensorImpl.itemsize impl)
    (TensorImpl.layout impl)
    (TensorImpl.is_sparse impl) (TensorImpl.is_mkldnn impl)
    (fun g => MemoryFormat_eqb g f || TensorImpl.is_contiguous impl g)
    (TensorImpl.is_strides_like_channels_last impl)
    (TensorImpl.is_strides_like_channels_last_3d impl)
    (TensorImpl.has_storage impl) (TensorImpl.requires_grad impl).

(** Modelled from the spec: the kernel behind [__dispatch_contiguous]
    (section 4.2): the new object goes to a fresh address, in a handle that
    owns it once. *)
Definition contiguous_kernel (self : Tensor) (f : MemoryFormat)
    (h : gmap positive intrusive_target)
  : result Tensor * gmap positive intrusive_target :=
  match unsafeGetTensorImpl self with
  | None => (Err (Exn UndefinedState "operation on an undefined Tensor"), h)
  | Some a =>
      match h !! a with
      | Some o =>
          let a' := fresh (dom h) in
          (Ok (mkTensor (intrusive_ptr.mk (Some a'))),
           <[a' := mk_target 1 0 (materialize (object_ o) f)]> h)
      | None => (Err (Exn UndefinedBehavior "dangling TensorImpl"), h)
      end
  end.

Definition backward_kernel (self : Tensor) (inputs : list Tensor)
    (gradient : option Tensor) (keep_graph : option bool)
    (create_graph : bool) (h : gmap positive intrusive_target)
  : result unit * gmap positive intrusive_target :=
  (Ok tt, h).

(** Channels-last strides of a 4-d shape [N; C; H; W] and of a 5-d shape
    [N; C; D; H; W]; other ranks have none. *)
Definition get_channels_last_strides_2d (sizes : list Z) : list Z :=
  match sizes with
  | [n; c; h; w] => [h * w * c; 1; w * c; c]
  | _ => []
  end.

Definition get_channels_last_strides_3d (sizes : list Z) : list Z :=
  match sizes with
  | [n; c; d; h; w] => [d * h * w * c; 1; h * w * c; w * c; c]
  | _ => []
  end.

#[local] Instance collaborators : Collaborators := {|
  ATen.invariants_hold := invariants_hold;
  ATen.contiguous_kernel := contiguous_kernel;
  ATen.backward_kernel := backward_kernel;
  ATen.get_channels_last_strides_2d := get_channels_last_strides_2d;
  ATen.get_channels_last_strides_3d := get_channels_last_strides_3d
|}.

(** Sample objects: a row-major 2x3 array of 4-byte elements; its
    transpose; a channels-last 1x2x3x4 array; a sparse 2x3 array; and a
    one-element array of 4-byte elements expanded, with stride zero, to
    [2^62] elements. *)
Definition row_major_2x3 : TensorImpl.t :=
  TensorImpl.mk [2; 3] [3; 1] 0 6 4 Strided false false
    (fun f => match f with Contiguous | Preserve => true | _ => false end)
    false false true false.

Definition transposed_3x2 : TensorImpl.t :=
  TensorImpl.mk [3; 2] [1; 3] 0 6 4 Strided false false
    (fun _ => false) false false true false.

Definition channels_last_1x2x3x4 : TensorImpl.t :=
  TensorImpl.mk [1; 2; 3; 4] [24; 1; 8; 2] 0 24 4 Strided false false
    (fun f => match f with ChannelsLast => true | _ => false end)
    true false true false.

Definition sparse_2x3 : TensorImpl.t :=
  TensorImpl.mk [2; 3] [] 0 6 4 Sparse true false
    (fun _ => false) false false false false.

Definition expanded_to_2p62 : TensorImpl.t :=
  TensorImpl.mk [2 ^ 62] [0] 0 (2 ^ 62) 4 Strided false false
    (fun _ => false) false false true false.

(** A store holding each sample once, and one owning handle for each. *)
Definition sample_heap : gmap positive intrusive_target :=
  <[5%positive := mk_target 1 0 expanded_to_2p62]>
    (<[4%positive := mk_target 1 0 sparse_2x3]>
       (<[3%positive := mk_target 1 0 channels_last_1x2x3x4]>
          (<[2%positive := mk_target 1 0 transposed_3x2]>
             (<[1%positive := mk_target 1 0 row_major_2x3]> ∅)))).

Definition sample_state : State := mkState sample_heap [].

Definition x : Tensor := mkTensor (intrusive_ptr.mk (Some 1%positive)).
Definition y : Tensor := mkTensor (intrusive_ptr.mk (Some 2%positive)).
Definition nhwc : Tensor := mkTensor (intrusive_ptr.mk (Some 3%positive)).
Definition coo : Tensor := mkTensor (intrusive_ptr.mk (Some 4%positive)).
Definition huge : Tensor := mkTensor (intrusive_ptr.mk (Some 5%positive)).

End Reference.

(** ** at: further members and helpers of the header *)

Module Members.
Import c10 ATen.

(** [getIntrusivePtr()] and [unsafeReleaseIntrusivePtr()]: the latter is
    [return std::move(impl_)], the pointer and the handle it leaves. *)
Definition getIntrusivePtr (self : Tensor) : intrusive_ptr.t := impl_ self.

Definition unsafeReleaseIntrusivePtr (self : Tensor)
  : intrusive_ptr.t * Tensor :=
  let '(p, q) := intrusive_ptr.move (impl_ self) in (p, mkTensor q).

(** The other way to write [createBorrow] that its comment gives:
    [borrow_type(intrusive_ptr::reclaim(from.unsafeGetTensorImpl()))],
    through the public constructor and its null check. *)
Definition createBorrow_by_public_constructor (from : Tensor) : M Tensor :=
  fun s =>
    let '(p, h) :=
      intrusive_ptr.reclaim (unsafeGetTensorImpl from) (heap s) in
    Tensor_from_impl p (set_heap h s).

(** Modelled from the spec: [MaybeOwned::owned(c10::in_place)]
    (c10/util/MaybeOwned.h is not part of these sources), the view in
    owns-a-value mode around a value constructed in place, here from no
    argument: [Tensor()]. *)
Definition owned_in_place : M MaybeOwned.t :=
  ret (MaybeOwned.is_owned Tensor_default).

(** [borrow_from_optional_tensor(const c10::optional<Tensor>&)]. *)
Definition borrow_from_optional_tensor (opt : option Tensor)
  : M MaybeOwned.t :=
  match opt with
  | Some x => MaybeOwned.borrowed x
  | None => owned_in_place
  end.

(** Modelled from the spec: [c10::make_intrusive<T>(args...)]
    (c10/util/intrusive_ptr.h is not part of these sources), after the
    factory of section 3: a freshly allocated Backing Object, its count
    already biased to the one unit the returned pointer holds.  The object
    built from [args] is given as [impl]. *)
Definition make_intrusive (impl : TensorImpl.t)
    (h : gmap positive intrusive_target)
  : intrusive_ptr.t * gmap positive intrusive_target :=
  let a := fresh (dom h) in
  (intrusive_ptr.mk (Some a), <[a := mk_target 1 0 impl]> h).

(** [detail::make_tensor<T>(args...)]. *)
Definition make_tensor (impl : TensorImpl.t) : M Tensor :=
  fun s =>
    let '(p, h) := make_intrusive impl (heap s) in
    Tensor_from_impl p (set_heap h s).

(** *** Accessors *)

(** [TensorAccessor<T, N>]: the data pointer and the two arrays the
    accessor reads through. *)
Record TensorAccessor : Type := mkAccessor {
  data_ : Z;
  sizes_ : list Z;
  strides_ : list Z
}.

(** [template <typename T> T* data_ptr() const], declared in the class and
    defined outside these sources: the typed data pointer, or an
    exception. *)
Class DataPointers : Type := {
  data_ptr : Tensor -> gmap positive intrusive_target -> result Z
}.

Section Accessors.
Context {pointers : DataPointers}.

Definition typed_data_ptr (self : Tensor) : M Z :=
  fun s => (data_ptr self (heap s), s).

(** The text [TORCH_CHECK] builds from its arguments. *)
Definition accessor_message (N : positive) (d : Z) : string :=
  ("TensorAccessor expected " ++ pretty (Z.pos N) ++
   " dims but tensor has " ++ pretty d)%string.

(** [TensorAccessor<T,N> accessor() const&].  [N] is positive, as the
    [static_assert] demands. *)
Definition accessor (N : positive) (self : Tensor) : M TensorAccessor :=
  let* d := dim self in
  TORCH_CHECK (d =? Z.pos N) InvalidArgument (accessor_message N d) ;;
  let* p := typed_data_ptr self in
  let* sz := sizes self in
  let* st := strides self in
  ret (mkAccessor p sz st).

End Accessors.

(** A data pointer for the samples: the storage offset of the object, and
    an exception on the null handle. *)
Definition sample_data_ptr (self : Tensor)
    (h : gmap positive intrusive_target) : result Z :=
  match unsafeGetTensorImpl self with
  | Some a =>
      match h !! a with
      | Some o => Ok (TensorImpl.storage_offset (object_ o))
      | None => Err (Exn UndefinedBehavior "dangling TensorImpl")
      end
  | None => Err (Exn UndefinedState "operation on an undefined Tensor")
  end.

#[local] Instance sample_pointers : DataPointers :=
  {| data_ptr := sample_data_ptr |}.

End Members.

(** * Verification *)

Module Proofs.
Import c10 ATen.

(** ** The state and the read of the backing object *)

Lemma heap_set_heap (h : gmap positive intrusive_target) (s : State) :
  heap (set_heap h s) = h.
Proof. reflexivity. Qed.

Lemma backing_object_live (self : Tensor) (s : State) (impl : TensorImpl.t) :
  backing_object self s = Some impl ->
  exists (a : positive) (o : intrusive_target),
    unsafeGetTensorImpl self = Some a /\ heap s !! a = Some o /\
    object_ o = impl.
Proof.
  unfold backing_object. destruct (unsafeGetTensorImpl self) as [a|]; [|done].
  destruct (heap s !! a) as [o|] eqn:Ho; simpl; [|done].
  intros [= <-]. by exists a, o.
Qed.

Lemma deref_backing_object (self : Tensor) (s : State) (impl : TensorImpl.t) :
  backing_object self s = Some impl -> deref self s = (Ok impl, s).
Proof.
  intros (a & o & Ha & Ho & <-)%backing_object_live.
  unfold deref. unfold unsafeGetTensorImpl in Ha. by rewrite Ha, Ho.
Qed.

(** A query that only reads a field answers with that field. *)
Lemma read_field {A : Type} (f : TensorImpl.t -> A) (self : Tensor)
    (s : State) (impl : TensorImpl.t) :
  backing_object self s = Some impl ->
  (let* i := deref self in ret (f i)) s = (Ok (f impl), s).
Proof. intros H. unfold bind. by rewrite (deref_backing_object _ _ _ H). Qed.

Ltac read_fields H :=
  unfold dim, sizes, strides, numel, itemsize, layout, is_sparse, is_mkldnn,
    is_contiguous, requires_grad, storage_offset;
  repeat (rewrite (read_field _ _ _ _ H) || rewrite (deref_backing_object _ _ _ H)).

(** ** Reference counting *)

Lemma is_same_refl (h : Tensor) : is_same h h = true.
Proof.
  unfold is_same, intrusive_ptr.eqb.
  destruct (intrusive_ptr.target_ (impl_ h)); [apply Pos.eqb_refl|done].
Qed.

(** Copying a live handle bumps its strong count by one and allocates
    nothing. *)
Lemma Tensor_copy_bumps (self : Tensor) (s : State) (a : positive)
    (o : intrusive_target) :
  unsafeGetTensorImpl self = Some a -> heap s !! a = Some o ->
  exists s',
    Tensor_copy self s = (Ok self, s') /\
    use_count self s' = use_count self s + 1 /\
    dom (heap s') = dom (heap s) /\
    dispatched s' = dispatched s /\
    backing_object self s' = backing_object self s.
Proof.
  intros Ha Ho. eexists. split.
  { unfold Tensor_copy, intrusive_ptr.copy. destruct self as [[p]]. reflexivity. }
  unfold unsafeGetTensorImpl, intrusive_ptr.get in Ha.
  unfold use_count, intrusive_ptr.use_count, backing_object,
    unsafeGetTensorImpl, intrusive_ptr.get, intrusive_ptr.retain_.
  rewrite Ha, heap_set_heap, Ho, lookup_insert_eq. simpl.
  repeat split.
  apply dom_insert_lookup_L. by exists o.
Qed.

(** Destroying a live handle takes one unit off the strong count of its
    object, or frees the object. *)
Lemma Tensor_dtor_drops (self : Tensor) (s : State) (a : positive)
    (o : intrusive_target) :
  unsafeGetTensorImpl self = Some a -> heap s !! a = Some o ->
  exists s',
    Tensor_dtor self s = (Ok tt, s') /\
    (heap s' !! a = None \/
     exists o', heap s' !! a = Some o' /\ refcount_ o' = refcount_ o - 1).
Proof.
  intros Ha Ho. eexists. split; [reflexivity|].
  unfold unsafeGetTensorImpl, intrusive_ptr.get in Ha.
  rewrite heap_set_heap. unfold intrusive_ptr.reset_. rewrite Ha, Ho.
  destruct ((refcount_ o - 1 =? 0) && (weakcount_ o =? 0)).
  - left. apply lookup_delete_eq.
  - right. eexists. rewrite lookup_insert_eq. by split.
Qed.

(** On the samples: an owning copy of [x] raises the count from 1 to 2 and
    its destruction brings it back to 1. *)
Example copy_then_destroy_on_samples :
  use_count Reference.x Reference.sample_state = 1 /\
  use_count Reference.x (snd (Tensor_copy Reference.x Reference.sample_state))
    = 2 /\
  use_count Reference.x
    (snd (Tensor_dtor Reference.x
            (snd (Tensor_copy Reference.x Reference.sample_state)))) = 1.
Proof. repeat split. Qed.

(** The first scenario of section 8: shape [[2; 3]], strides [[3; 1]]. *)
Example row_major_scenario :
  is_contiguous Reference.x Contiguous Reference.sample_state =
    (Ok true, Reference.sample_state) /\
  numel Reference.x Reference.sample_state = (Ok 6, Reference.sample_state) /\
  dim Reference.x Reference.sample_state = (Ok 2, Reference.sample_state) /\
  size Reference.x (-1) Reference.sample_state =
    (Ok 3, Reference.sample_state).
Proof. repeat split. Qed.

(** C1. A Borrowed View built from a handle [h] refers to the backing
    object of [h] and leaves its strong count as it was; destroying the view
    leaves it as it was too: the count before the pair of construction and
    destruction is the count after it, and the whole state is unchanged.
    This holds for every handle, so for every defined owning one. *)
Theorem borrowed_view_leaves_use_count (h : Tensor) (s : State) :
  exists (b : Tensor) (s1 s2 : State),
    MaybeOwned.borrowed h s = (Ok (MaybeOwned.is_borrowed b), s1) /\
    MaybeOwnedTraits.createBorrow h s = (Ok b, s1) /\
    is_same b h = true /\
    use_count h s1 = use_count h s /\
    MaybeOwned.destroy (MaybeOwned.is_borrowed b) s1 = (Ok tt, s2) /\
    MaybeOwnedTraits.destroyBorrow b s1 = (Ok Tensor_default, s2) /\
    use_count h s2 = use_count h s /\
    s2 = s.
Proof.
  exists h, s, s.
  assert (Hb : MaybeOwnedTraits.createBorrow h s = (Ok h, s)).
  { unfold MaybeOwnedTraits.createBorrow, Tensor_unsafe_borrow,
      intrusive_ptr.reclaim, intrusive_ptr.get.
    destruct h as [[p]], s. reflexivity. }
  assert (Hd : MaybeOwnedTraits.destroyBorrow h s = (Ok Tensor_default, s)).
  { unfold MaybeOwnedTraits.destroyBorrow, unsafeReleaseTensorImpl,
      intrusive_ptr.release, bind, ret. by destruct s. }
  repeat split; try done.
  - unfold MaybeOwned.borrowed, bind. by rewrite Hb.
  - apply is_same_refl.
  - unfold MaybeOwned.destroy, bind. rewrite Hd.
    unfold Tensor_dtor. by destruct s.
Qed.

(** ** Construction from an owned backing reference *)

Section Construction.
Context {collab : Collaborators}.

(** C4. [wrap_tensor_impl], the construction from an owned backing
    reference.  On a null reference it fails with InvariantViolation, the
    state untouched; the constructor it goes through fails the same way.
    On a reference to [a], the constructor takes the reference over as it
    is, without a change of any count, and [enforce_invariants] is run on
    the new handle before it is returned: when the check passes the result
    is the handle on [a] in an unchanged state, and when the check throws
    the handle is never returned, the exception of the check comes out
    and the local handle is destroyed. *)
Theorem wrap_tensor_impl_checks_before_return (s : State) :
  wrap_tensor_impl intrusive_ptr.null s =
    (Err (Exn InvariantViolation "TensorImpl with nullptr is not supported"),
     s) /\
  Tensor_from_impl intrusive_ptr.null s =
    wrap_tensor_impl intrusive_ptr.null s /\
  forall a : positive,
    let tensor_impl := intrusive_ptr.mk (Some a) in
    let r := mkTensor tensor_impl in
    Tensor_from_impl tensor_impl s = (Ok r, s) /\
    unsafeGetTensorImpl r = Some a /\
    use_count r s = intrusive_ptr.use_count tensor_impl (heap s) /\
    match enforce_invariants r s with
    | (Ok _, _) => wrap_tensor_impl tensor_impl s = (Ok r, s)
    | (Err e, _) =>
        wrap_tensor_impl tensor_impl s =
          (Err e, set_heap (intrusive_ptr.reset_ tensor_impl (heap s)) s)
    end.
Proof.
  split; [reflexivity|]. split; [reflexivity|].
  intros a. simpl. repeat split.
  unfold wrap_tensor_impl, bind, unwinding, enforce_invariants, ret. simpl.
  destruct (invariants_hold _ (heap s)); reflexivity.
Qed.

End Construction.

(** ** [backward] *)

Section Backward.
Context {collab : Collaborators}.

(** C9. [backward] with an [inputs] argument that is present and empty
    throws, and the state it leaves is the state it started in: no call has
    been forwarded, whatever the collaborators are.  With [inputs] absent
    the check is not made: the call is [_backward] with the empty list, so
    one call is forwarded, with no inputs, and the outcome of [backward] is
    the outcome of that call.  With a non-empty list the call is forwarded
    with that list. *)
Theorem backward_rejects_empty_inputs (h gradient : Tensor)
    (retain_graph : option bool) (create_graph : bool) (s : State) :
  backward h gradient retain_graph create_graph (Some []) s =
    (Err (Exn InvalidArgument
            "'inputs' argument to backward cannot be empty"), s) /\
  backward h gradient retain_graph create_graph None s =
    _backward h [] (Some gradient) retain_graph create_graph s /\
  dispatched
    (snd (backward h gradient retain_graph create_graph None s)) =
    dispatched s ++
      [call_backward h [] (Some gradient) retain_graph create_graph] /\
  fst (backward h gradient retain_graph create_graph None s) =
    fst (backward_kernel h [] (Some gradient) retain_graph create_graph
           (heap s)) /\
  forall (t : Tensor) (ts : list Tensor),
    backward h gradient retain_graph create_graph (Some (t :: ts)) s =
      _backward h (t :: ts) (Some gradient) retain_graph create_graph s.
Proof.
  repeat split.
  - unfold backward, _backward. simpl.
    by destruct (backward_kernel _ _ _ _ _ _).
  - unfold backward, _backward. simpl.
    by destruct (backward_kernel _ _ _ _ _ _).
Qed.

End Backward.

(** ** Per-axis size and stride *)

Lemma maybe_wrap_dim_nonneg (d rank : Z) :
  0 <= d < rank -> maybe_wrap_dim d rank false = Ok d.
Proof.
  intros H. unfold maybe_wrap_dim. rewrite andb_false_r.
  destruct (Z.ltb_spec d 0); [lia|].
  destruct (Z.leb_spec 0 d), (Z.ltb_spec d rank); simpl; (reflexivity || lia).
Qed.

Lemma maybe_wrap_dim_negative (d rank : Z) :
  0 <= d < rank -> maybe_wrap_dim (d - rank) rank false = Ok d.
Proof.
  intros H. unfold maybe_wrap_dim. rewrite andb_false_r.
  destruct (Z.ltb_spec (d - rank) 0); [|lia].
  replace (d - rank + rank) with d by lia.
  destruct (Z.leb_spec 0 d), (Z.ltb_spec d rank); simpl; (reflexivity || lia).
Qed.

Lemma maybe_wrap_dim_above (rank : Z) :
  0 <= rank ->
  maybe_wrap_dim rank rank false =
    Err (Exn IndexOutOfRange "Dimension out of range").
Proof.
  intros H. unfold maybe_wrap_dim. rewrite andb_false_r.
  destruct (Z.ltb_spec rank 0); [lia|].
  destruct (Z.ltb_spec rank rank); [lia|]. by rewrite andb_false_r.
Qed.

Lemma maybe_wrap_dim_below (rank : Z) :
  0 <= rank ->
  maybe_wrap_dim (- rank - 1) rank false =
    Err (Exn IndexOutOfRange "Dimension out of range").
Proof.
  intros H. unfold maybe_wrap_dim. rewrite andb_false_r.
  destruct (Z.ltb_spec (- rank - 1) 0); [|lia].
  destruct (Z.leb_spec 0 (- rank - 1 + rank)); [lia|]. reflexivity.
Qed.

Lemma ArrayRef_at_in_range (a : list Z) (i : Z) (s : State) :
  0 <= i < Z.of_nat (List.length a) ->
  exists v, a !! Z.to_nat i = Some v /\ ArrayRef_at a i s = (Ok v, s).
Proof.
  intros H. unfold ArrayRef_at.
  destruct (Z.ltb_spec i 0); [lia|].
  destruct (lookup_lt_is_Some_2 a (Z.to_nat i)) as [v Hv]; [lia|].
  exists v. by rewrite Hv.
Qed.

Lemma size_unfold (h : Tensor) (s : State) (impl : TensorImpl.t) (d : Z) :
  backing_object h s = Some impl ->
  size h d s =
    match maybe_wrap_dim d (TensorImpl.dim impl) false with
    | Err e => (Err e, s)
    | Ok d' => ArrayRef_at (TensorImpl.sizes impl) d' s
    end.
Proof.
  intros H. unfold size, bind at 1. read_fields H.
  destruct (maybe_wrap_dim _ _ _); [|reflexivity].
  unfold bind. by read_fields H.
Qed.

Lemma stride_unfold (h : Tensor) (s : State) (impl : TensorImpl.t) (d : Z) :
  backing_object h s = Some impl ->
  stride h d s =
    match maybe_wrap_dim d (TensorImpl.dim impl) false with
    | Err e => (Err e, s)
    | Ok d' => ArrayRef_at (TensorImpl.strides impl) d' s
    end.
Proof.
  intros H. unfold stride, bind at 1. read_fields H.
  destruct (maybe_wrap_dim _ _ _); [|reflexivity].
  unfold bind. by read_fields H.
Qed.

(** C6. For a defined handle [h] whose object has rank [r]: for every
    [d] in [[0, r)], [size(d)] and [size(d - r)] are the same answer,
    namely the [d]-th size; [size(r)] and [size(-r-1)] both fail with
    IndexOutOfRange.  [stride] wraps the same way: [stride(d)] and
    [stride(d - r)] are the same answer, the [d]-th stride when the object
    has as many strides as sizes, and [stride(r)] and [stride(-r-1)] fail
    with IndexOutOfRange. *)
Theorem size_and_stride_wrap_negative_dims (h : Tensor) (s : State)
    (impl : TensorImpl.t) :
  backing_object h s = Some impl ->
  let r := TensorImpl.dim impl in
  (forall d : Z, 0 <= d < r ->
     size h d s = size h (d - r) s /\
     exists v : Z,
       TensorImpl.sizes impl !! Z.to_nat d = Some v /\
       size h d s = (Ok v, s)) /\
  (exists msg, size h r s = (Err (Exn IndexOutOfRange msg), s)) /\
  (exists msg, size h (- r - 1) s = (Err (Exn IndexOutOfRange msg), s)) /\
  (forall d : Z, 0 <= d < r ->
     stride h d s = stride h (d - r) s /\
     (List.length (TensorImpl.strides impl) =
        List.length (TensorImpl.sizes impl) ->
      exists v : Z,
        TensorImpl.strides impl !! Z.to_nat d = Some v /\
        stride h d s = (Ok v, s))) /\
  (exists msg, stride h r s = (Err (Exn IndexOutOfRange msg), s)) /\
  (exists msg, stride h (- r - 1) s = (Err (Exn IndexOutOfRange msg), s)).
Proof.
  intros H r.
  assert (Hr : 0 <= r) by (unfold r, TensorImpl.dim; lia).
  repeat split.
  - rewrite !(size_unfold _ _ _ _ H). fold r.
    by rewrite maybe_wrap_dim_nonneg, maybe_wrap_dim_negative.
  - rewrite (size_unfold _ _ _ _ H). fold r.
    rewrite maybe_wrap_dim_nonneg by done.
    by apply ArrayRef_at_in_range.
  - eexists. rewrite (size_unfold _ _ _ _ H). fold r.
    by rewrite maybe_wrap_dim_above.
  - eexists. rewrite (size_unfold _ _ _ _ H). fold r.
    by rewrite maybe_wrap_dim_below.
  - rewrite !(stride_unfold _ _ _ _ H). fold r.
    by rewrite maybe_wrap_dim_nonneg, maybe_wrap_dim_negative.
  - intros Hlen. rewrite (stride_unfold _ _ _ _ H). fold r.
    rewrite maybe_wrap_dim_nonneg by done.
    apply ArrayRef_at_in_range. rewrite Hlen. done.
  - eexists. rewrite (stride_unfold _ _ _ _ H). fold r.
    by rewrite maybe_wrap_dim_above.
  - eexists. rewrite (stride_unfold _ _ _ _ H). fold r.
    by rewrite maybe_wrap_dim_below.
Qed.

Lemma size_and_stride_wrap_on_2x3 :
  backing_object Reference.x Reference.sample_state =
    Some Reference.row_major_2x3 /\
  size Reference.x 1 Reference.sample_state =
    size Reference.x (-1) Reference.sample_state /\
  size Reference.x (-1) Reference.sample_state =
    (Ok 3, Reference.sample_state) /\
  stride Reference.x 0 Reference.sample_state =
    stride Reference.x (-2) Reference.sample_state.
Proof.
  pose proof (size_and_stride_wrap_negative_dims Reference.x
                Reference.sample_state Reference.row_major_2x3 eq_refl)
    as (Hsize & _ & _ & Hstride & _).
  split; [reflexivity|]. split; [|split].
  - apply (Hsize 1). vm_compute. split; discriminate || reflexivity.
  - reflexivity.
  - apply (Hstride 0). vm_compute. split; discriminate || reflexivity.
Defined.

(** ** Memory-format suggestion *)

Section MemoryFormatSuggestion.
Context {collab : Collaborators}.

(** The decision of [suggest_memory_format], read off the fields of the
    object. *)
Lemma suggest_memory_format_unfold (h : Tensor) (s : State)
    (impl : TensorImpl.t) (exact : bool) :
  backing_object h s = Some impl ->
  suggest_memory_format h exact s =
    (Ok
       (if negb (TensorImpl.is_mkldnn impl) && negb (TensorImpl.is_sparse impl)
        then
          if TensorImpl.is_strides_like_channels_last impl then
            if negb exact
               || IntArrayRef_eqb
                    (get_channels_last_strides_2d (TensorImpl.sizes impl))
                    (TensorImpl.strides impl)
            then ChannelsLast else Contiguous
          else if TensorImpl.is_strides_like_channels_last_3d impl then
            if negb exact
               || IntArrayRef_eqb
                    (get_channels_last_strides_3d (TensorImpl.sizes impl))
                    (TensorImpl.strides impl)
            then ChannelsLast3d else Contiguous
          else Contiguous
        else Contiguous), s).
Proof.
  intros H. unfold suggest_memory_format, bind, ret.
  read_fields H.
  destruct (TensorImpl.is_mkldnn impl); simpl; [reflexivity|].
  read_fields H.
  destruct (TensorImpl.is_sparse impl); simpl; [reflexivity|].
  read_fields H.
  destruct (TensorImpl.is_strides_like_channels_last impl).
  - destruct exact; simpl; [|reflexivity].
    read_fields H. by destruct (IntArrayRef_eqb _ _).
  - read_fields H.
    destruct (TensorImpl.is_strides_like_channels_last_3d impl);
      [|reflexivity].
    destruct exact; simpl; [|reflexivity].
    read_fields H. by destruct (IntArrayRef_eqb _ _).
Qed.

(** C7. For a defined handle, [suggest_memory_format] answers, without a
    change of state, with one of Contiguous, ChannelsLast and
    ChannelsLast3d.  It answers ChannelsLast only when the object is
    neither mkldnn nor sparse and its strides are like channels-last (the
    4-d pattern), and ChannelsLast3d only when the object is neither mkldnn
    nor sparse and its strides are like channels-last-3d (the 5-d
    pattern); with the exact-match flag set, the strides must moreover be
    equal to the closed-form channels-last strides of the sizes.  Under
    these conditions it does answer with the channels-last format, the 4-d
    pattern being tried first; in every other case it answers
    Contiguous. *)
Theorem suggest_memory_format_decision (h : Tensor) (s : State)
    (impl : TensorImpl.t) (exact : bool) :
  backing_object h s = Some impl ->
  let plain :=
    TensorImpl.is_mkldnn impl = false /\ TensorImpl.is_sparse impl = false in
  let like_2d := TensorImpl.is_strides_like_channels_last impl = true in
  let like_3d := TensorImpl.is_strides_like_channels_last_3d impl = true in
  let exact_2d :=
    exact = true ->
    get_channels_last_strides_2d (TensorImpl.sizes impl) =
      TensorImpl.strides impl in
  let exact_3d :=
    exact = true ->
    get_channels_last_strides_3d (TensorImpl.sizes impl) =
      TensorImpl.strides impl in
  exists f : MemoryFormat,
    suggest_memory_format h exact s = (Ok f, s) /\
    (f = Contiguous \/ f = ChannelsLast \/ f = ChannelsLast3d) /\
    (f = ChannelsLast <-> plain /\ like_2d /\ exact_2d) /\
    (f = ChannelsLast3d <-> plain /\ ~ like_2d /\ like_3d /\ exact_3d) /\
    (~ (plain /\ like_2d /\ exact_2d) ->
     ~ (plain /\ like_3d /\ exact_3d) -> f = Contiguous).
Proof.
  intros H. simpl. eexists. split; [by apply suggest_memory_format_unfold|].
  unfold IntArrayRef_eqb.
  destruct (TensorImpl.is_mkldnn impl), (TensorImpl.is_sparse impl),
    (TensorImpl.is_strides_like_channels_last impl),
    (TensorImpl.is_strides_like_channels_last_3d impl), exact; simpl;
    repeat case_bool_decide; intuition congruence.
Qed.

End MemoryFormatSuggestion.

Lemma suggest_memory_format_on_channels_last :
  backing_object Reference.nhwc Reference.sample_state =
    Some Reference.channels_last_1x2x3x4 /\
  exists f : MemoryFormat,
    suggest_memory_format (collab := Reference.collaborators)
      Reference.nhwc true Reference.sample_state =
      (Ok f, Reference.sample_state) /\
    f = ChannelsLast.
Proof.
  split; [reflexivity|].
  destruct (suggest_memory_format_decision (collab := Reference.collaborators)
              Reference.nhwc Reference.sample_state
              Reference.channels_last_1x2x3x4 true eq_refl)
    as (f & Hf & _ & Hcl & _).
  exists f. split; [exact Hf|].
  apply Hcl. repeat split; reflexivity.
Defined.

(** ** Byte size *)

Lemma size_t_mul_mod (a b : Z) :
  size_t_mul a b = (a * b) mod size_t_modulus.
Proof.
  unfold size_t_mul, to_size_t. symmetry. by apply Z.mul_mod.
Qed.

Lemma nbytes_unfold (h : Tensor) (s : State) (impl : TensorImpl.t) :
  backing_object h s = Some impl ->
  nbytes h s =
    if Layout_eqb (TensorImpl.layout impl) Sparse
    then
      (Err (Exn UnsupportedOperation
              "nbytes is not defined for sparse tensors.  If you want the size of the constituent tensors, add the nbytes of the indices and values.  If you want the size of the  equivalent dense tensor, multiply numel() by element_size()"),
       s)
    else
      (Ok (size_t_mul (TensorImpl.numel impl) (TensorImpl.itemsize impl)), s).
Proof.
  intros H. unfold nbytes, bind at 1. read_fields H.
  destruct (Layout_eqb _ _); simpl; [reflexivity|].
  unfold bind, ret. by read_fields H.
Qed.

Lemma Layout_eqb_eq (a b : Layout) : Layout_eqb a b = true <-> a = b.
Proof. destruct a, b; simpl; split; congruence. Qed.

(** Counterexample to C8 as stated: for the one-element array of 4-byte
    elements expanded to [2^62] elements, whose layout is strided, the
    element count times the element width is [2^64], and [nbytes] answers
    [0]. *)
Lemma nbytes_of_expanded_array_wraps :
  backing_object Reference.huge Reference.sample_state =
    Some Reference.expanded_to_2p62 /\
  TensorImpl.layout Reference.expanded_to_2p62 = Strided /\
  0 <= TensorImpl.numel Reference.expanded_to_2p62 <= int64_max /\
  0 <= TensorImpl.itemsize Reference.expanded_to_2p62 < size_t_modulus /\
  TensorImpl.numel Reference.expanded_to_2p62 *
    TensorImpl.itemsize Reference.expanded_to_2p62 = 2 ^ 64 /\
  nbytes Reference.huge Reference.sample_state =
    (Ok 0, Reference.sample_state) /\
  nbytes Reference.huge Reference.sample_state <>
    (Ok (TensorImpl.numel Reference.expanded_to_2p62 *
         TensorImpl.itemsize Reference.expanded_to_2p62),
     Reference.sample_state).
Proof.
  repeat split; try reflexivity; try (vm_compute; discriminate).
Qed.

(** C8, amended.  For a defined handle, [nbytes] fails with
    UnsupportedOperation when the layout of the object is sparse, and
    otherwise answers with the product of the element count and the element
    width as [size_t] arithmetic computes it, that is modulo [2^64]: the
    exact product whenever that is below [2^64]. *)
Theorem nbytes_sparse_fails_else_wrapped_product (h : Tensor) (s : State)
    (impl : TensorImpl.t) :
  backing_object h s = Some impl ->
  (TensorImpl.layout impl = Sparse ->
   exists msg, nbytes h s = (Err (Exn UnsupportedOperation msg), s)) /\
  (TensorImpl.layout impl <> Sparse ->
   nbytes h s =
     (Ok ((TensorImpl.numel impl * TensorImpl.itemsize impl) mod 2 ^ 64), s) /\
   (0 <= TensorImpl.numel impl * TensorImpl.itemsize impl < 2 ^ 64 ->
    nbytes h s =
      (Ok (TensorImpl.numel impl * TensorImpl.itemsize impl), s))).
Proof.
  intros H. rewrite (nbytes_unfold _ _ _ H). split.
  - intros ->. simpl. by eexists.
  - intros Hl.
    destruct (Layout_eqb _ _) eqn:E; [by apply Layout_eqb_eq in E|].
    rewrite size_t_mul_mod. split; [reflexivity|].
    intros Hsmall. unfold size_t_modulus. by rewrite Z.mod_small.
Qed.

Lemma nbytes_on_samples :
  backing_object Reference.coo Reference.sample_state =
    Some Reference.sparse_2x3 /\
  backing_object Reference.x Reference.sample_state =
    Some Reference.row_major_2x3 /\
  (exists msg,
     nbytes Reference.coo Reference.sample_state =
       (Err (Exn UnsupportedOperation msg), Reference.sample_state)) /\
  nbytes Reference.x Reference.sample_state = (Ok 24, Reference.sample_state).
Proof.
  split; [reflexivity|]. split; [reflexivity|]. split.
  - apply (nbytes_sparse_fails_else_wrapped_product Reference.coo
             Reference.sample_state Reference.sparse_2x3 eq_refl).
    reflexivity.
  - apply (nbytes_sparse_fails_else_wrapped_product Reference.x
             Reference.sample_state Reference.row_major_2x3 eq_refl).
    + discriminate.
    + vm_compute. split; discriminate || reflexivity.
Defined.

(** ** The null handle *)


Section NullHandle.
Context {collab : Collaborators}.


End NullHandle.


(** ** Contiguous materialization *)

Section Contiguous.
Context {collab : Collaborators}.
Hypothesis dispatcher_materializes : materializes_conforming collab.

(** What a forwarded [contiguous] amounts to on a handle whose object does
    not have the layout: one recorded call, and one new object. *)
Lemma dispatch_contiguous_fresh (h : Tensor) (f : MemoryFormat) (s : State)
    (impl : TensorImpl.t) :
  backing_object h s = Some impl ->
  TensorImpl.is_contiguous impl f = false ->
  exists (a' : positive) (o' : intrusive_target),
    __dispatch_contiguous h f s =
      (Ok (mkTensor (intrusive_ptr.mk (Some a'))),
       mkState (<[a' := o']> (heap s))
         (dispatched s ++ [call_contiguous h f])) /\
    heap s !! a' = None /\
    refcount_ o' = 1 /\
    TensorImpl.is_contiguous (object_ o') f = true.
Proof.
  intros (a & o & Ha & Ho & <-)%backing_object_live Hf.
  destruct (dispatcher_materializes h f (heap s) a o Ha Ho Hf)
    as (a' & o' & Hk & Hfresh & Hrc & Hconf).
  exists a', o'. repeat split; try done.
  unfold __dispatch_contiguous. simpl. by rewrite Hk.
Qed.

(** The handle on a new object is not the handle it was made from, has the
    layout, and leaves the old object as it was. *)
Lemma fresh_handle_facts (h : Tensor) (f : MemoryFormat) (s : State)
    (impl : TensorImpl.t) (a' : positive) (o' : intrusive_target)
    (calls : list DispatchCall) :
  backing_object h s = Some impl ->
  heap s !! a' = None ->
  TensorImpl.is_contiguous (object_ o') f = true ->
  let r := mkTensor (intrusive_ptr.mk (Some a')) in
  let s' := mkState (<[a' := o']> (heap s)) calls in
  is_same r h = false /\
  is_contiguous r f s' = (Ok true, s') /\
  use_count r s' = refcount_ o' /\
  backing_object h s' = Some impl /\
  use_count h s' = use_count h s.
Proof.
  intros Hb Hfresh Hconf r s'.
  destruct (backing_object_live _ _ _ Hb) as (a & o & Ha & Ho & Himpl).
  assert (Hne : a' <> a) by (intros ->; congruence).
  unfold unsafeGetTensorImpl, intrusive_ptr.get in Ha.
  repeat split.
  - unfold is_same, intrusive_ptr.eqb. simpl. rewrite Ha.
    by apply Pos.eqb_neq.
  - unfold is_contiguous, bind, deref, ret. simpl.
    by rewrite lookup_insert_eq, Hconf.
  - unfold use_count, intrusive_ptr.use_count. simpl.
    by rewrite lookup_insert_eq.
  - unfold backing_object, unsafeGetTensorImpl, intrusive_ptr.get.
    rewrite Ha. simpl. rewrite lookup_insert_ne by done. rewrite Ho. simpl.
    by rewrite Himpl.
  - unfold use_count, intrusive_ptr.use_count. rewrite Ha. simpl.
    by rewrite lookup_insert_ne.
Qed.

(** C2. For a defined handle [h] and a memory format [f].  When
    [h.is_contiguous(f)] is true, [h.contiguous(f)] returns a handle that is
    the same as [h]: no object is allocated, nothing is forwarded, and the
    strong count of the object goes up by the one unit of the copy.  When
    [h.is_contiguous(f)] is false, [h.contiguous(f)] forwards one call to
    the dispatcher and returns what it produced: a handle [r] that is not
    the same as [h] and for which [is_contiguous(f)] is true.  The
    dispatcher is any that materializes as section 4.2 says. *)
Theorem contiguous_aliases_or_materializes (h : Tensor) (f : MemoryFormat)
    (s : State) (impl : TensorImpl.t) :
  backing_object h s = Some impl ->
  is_contiguous h f s = (Ok (TensorImpl.is_contiguous impl f), s) /\
  (TensorImpl.is_contiguous impl f = true ->
   exists (r : Tensor) (s' : State),
     contiguous h f s = (Ok r, s') /\
     is_same r h = true /\
     dom (heap s') = dom (heap s) /\
     use_count h s' = use_count h s + 1 /\
     dispatched s' = dispatched s) /\
  (TensorImpl.is_contiguous impl f = false ->
   exists (r : Tensor) (s' : State),
     contiguous h f s = (Ok r, s') /\
     __dispatch_contiguous h f s = (Ok r, s') /\
     is_same r h = false /\
     is_contiguous r f s' = (Ok true, s') /\
     dispatched s' = dispatched s ++ [call_contiguous h f]).
Proof.
  intros Hb.
  assert (Hc : is_contiguous h f s = (Ok (TensorImpl.is_contiguous impl f), s))
    by (by read_fields Hb).
  split; [exact Hc|]. split; intros Hf.
  - destruct (backing_object_live _ _ _ Hb) as (a & o & Ha & Ho & _).
    destruct (Tensor_copy_bumps h s a o Ha Ho)
      as (s' & Hcopy & Hcount & Hdom & Hcalls & _).
    exists h, s'. repeat split; try done.
    + unfold contiguous, bind. by rewrite Hc, Hf.
    + apply is_same_refl.
  - destruct (dispatch_contiguous_fresh h f s impl Hb Hf)
      as (a' & o' & Hd & Hfresh & _ & Hconf).
    destruct (fresh_handle_facts h f s impl a' o'
                (dispatched s ++ [call_contiguous h f]) Hb Hfresh Hconf)
      as (Hsame & Hcontig & _).
    eexists _, _. split; [|split; [|split; [exact Hsame|split; [exact Hcontig|]]]].
    + unfold contiguous, bind. rewrite Hc, Hf. exact Hd.
    + exact Hd.
    + reflexivity.
Qed.

End Contiguous.

Lemma MemoryFormat_eqb_refl (f : MemoryFormat) :
  Reference.MemoryFormat_eqb f f = true.
Proof. by destruct f. Qed.

(** The reference kernel materializes as section 4.2 says. *)
Lemma reference_materializes :
  materializes_conforming Reference.collaborators.
Proof.
  intros self f h a o Ha Ho Hf. simpl.
  exists (fresh (dom h)), (mk_target 1 0 (Reference.materialize (object_ o) f)).
  unfold Reference.contiguous_kernel. rewrite Ha, Ho.
  split; [reflexivity|]. split; [|split; [reflexivity|]].
  - apply not_elem_of_dom, is_fresh.
  - simpl. by rewrite MemoryFormat_eqb_refl.
Qed.

Lemma contiguous_on_samples :
  backing_object Reference.x Reference.sample_state =
    Some Reference.row_major_2x3 /\
  backing_object Reference.y Reference.sample_state =
    Some Reference.transposed_3x2 /\
  (exists (r : Tensor) (s' : State),
     contiguous (collab := Reference.collaborators) Reference.x Contiguous
       Reference.sample_state = (Ok r, s') /\
     is_same r Reference.x = true) /\
  (exists (r : Tensor) (s' : State),
     contiguous (collab := Reference.collaborators) Reference.y Contiguous
       Reference.sample_state = (Ok r, s') /\
     is_same r Reference.y = false /\
     is_contiguous r Contiguous s' = (Ok true, s')).
Proof.
  split; [reflexivity|]. split; [reflexivity|]. split.
  - destruct (contiguous_aliases_or_materializes reference_materializes
                Reference.x Contiguous Reference.sample_state
                Reference.row_major_2x3 eq_refl) as (_ & Hfast & _).
    destruct (Hfast eq_refl) as (r & s' & Hr & Hsame & _).
    by exists r, s'.
  - destruct (contiguous_aliases_or_materializes reference_materializes
                Reference.y Contiguous Reference.sample_state
                Reference.transposed_3x2 eq_refl) as (_ & _ & Hslow).
    destruct (Hslow eq_refl) as (r & s' & Hr & _ & Hsame & Hcontig & _).
    by exists r, s'.
Defined.

(** ** Borrowing a contiguous handle *)

(** Counterexample to C3 as stated: a temporary whose type is const is an
    rvalue, yet the call on it compiles, the deleted [&&] declaration not
    being viable for it and [const &] being selected.  When that temporary
    is the only owner of a contiguous object, here [x], the view returned
    is a borrow of that object, and after the temporary is destroyed the
    handle in the view is still defined and its object is gone. *)
Lemma const_temporary_borrow_dangles :
  viable (mkObject rvalue true) (mkOverload false rvalue_ref true) = false /\
  select_overload (mkObject rvalue true) expect_contiguous_overloads =
    Some (mkOverload true lvalue_ref false) /\
  call_compiles (mkObject rvalue true) expect_contiguous_overloads = true /\
  expect_contiguous (collab := Reference.collaborators) Reference.x Contiguous
    Reference.sample_state =
    (Ok (MaybeOwned.is_borrowed Reference.x), Reference.sample_state) /\
  defined (MaybeOwned.get (MaybeOwned.is_borrowed Reference.x)) = true /\
  backing_object (MaybeOwned.get (MaybeOwned.is_borrowed Reference.x))
    (snd (Tensor_dtor Reference.x Reference.sample_state)) = None.
Proof. repeat split. Qed.

Section ExpectContiguous.
Context {collab : Collaborators}.
Hypothesis dispatcher_materializes : materializes_conforming collab.

(** C3, amended.  For a defined handle [h], called as an lvalue, and a
    memory format [f].  When [h.is_contiguous(f)] is true,
    [h.expect_contiguous(f)] returns a Borrowed View in borrowed mode that
    refers to the object of [h], and the state, so every count, is as
    before.  When it is false, the view is in owned mode and holds the
    handle the dispatcher materialized: a new object with the layout [f],
    owned once, while [h] and its object are as before.  The call compiles
    on every lvalue and selects the [const &] declaration.  On an rvalue
    that is not const, overload resolution selects the deleted [&&]
    declaration, so the call does not compile.  On a const rvalue the
    [&&] declaration is not viable: the [const &] declaration is selected
    and the call compiles. *)
Theorem expect_contiguous_borrows_or_owns (h : Tensor) (f : MemoryFormat)
    (s : State) (impl : TensorImpl.t) :
  backing_object h s = Some impl ->
  (TensorImpl.is_contiguous impl f = true ->
   exists b : Tensor,
     expect_contiguous h f s = (Ok (MaybeOwned.is_borrowed b), s) /\
     MaybeOwned.isBorrowed (MaybeOwned.is_borrowed b) = true /\
     is_same (MaybeOwned.get (MaybeOwned.is_borrowed b)) h = true) /\
  (TensorImpl.is_contiguous impl f = false ->
   exists (r : Tensor) (s' : State),
     expect_contiguous h f s = (Ok (MaybeOwned.is_owned r), s') /\
     MaybeOwned.isBorrowed (MaybeOwned.is_owned r) = false /\
     __dispatch_contiguous h f s = (Ok r, s') /\
     is_same r h = false /\
     backing_object r s = None /\
     is_contiguous r f s' = (Ok true, s') /\
     use_count r s' = 1 /\
     backing_object h s' = Some impl /\
     use_count h s' = use_count h s) /\
  (forall c : bool,
     select_overload (mkObject lvalue c) expect_contiguous_overloads =
       Some (mkOverload true lvalue_ref false) /\
     call_compiles (mkObject lvalue c) expect_contiguous_overloads = true) /\
  select_overload (mkObject rvalue false) expect_contiguous_overloads =
    Some (mkOverload false rvalue_ref true) /\
  call_compiles (mkObject rvalue false) expect_contiguous_overloads = false /\
  select_overload (mkObject rvalue true) expect_contiguous_overloads =
    Some (mkOverload true lvalue_ref false) /\
  call_compiles (mkObject rvalue true) expect_contiguous_overloads = true.
Proof.
  intros Hb.
  assert (Hc : is_contiguous h f s = (Ok (TensorImpl.is_contiguous impl f), s))
    by (by read_fields Hb).
  split; [|split; [|split; [by intros []|by repeat split]]]; intros Hf.
  - exists h. split; [|split; [reflexivity|]].
    + unfold expect_contiguous, bind at 1. rewrite Hc, Hf.
      unfold MaybeOwned.borrowed, bind, MaybeOwnedTraits.createBorrow,
        Tensor_unsafe_borrow, intrusive_ptr.reclaim, intrusive_ptr.get.
      by destruct h as [[p]], s.
    + apply is_same_refl.
  - destruct (dispatch_contiguous_fresh dispatcher_materializes h f s impl
                Hb Hf) as (a' & o' & Hd & Hfresh & Hrc & Hconf).
    destruct (fresh_handle_facts h f s impl a' o'
                (dispatched s ++ [call_contiguous h f]) Hb Hfresh Hconf)
      as (Hsame & Hcontig & Hcount & Hkeep & Hkeepc).
    exists (mkTensor (intrusive_ptr.mk (Some a'))),
      (mkState (<[a' := o']> (heap s)) (dispatched s ++ [call_contiguous h f])).
    repeat split; try assumption.
    + unfold expect_contiguous, bind at 1. rewrite Hc, Hf.
      unfold bind. by rewrite Hd.
    + unfold backing_object. simpl. by rewrite Hfresh.
    + by rewrite Hcount.
Qed.

End ExpectContiguous.

Lemma expect_contiguous_on_samples :
  backing_object Reference.x Reference.sample_state =
    Some Reference.row_major_2x3 /\
  backing_object Reference.y Reference.sample_state =
    Some Reference.transposed_3x2 /\
  (exists b : Tensor,
     expect_contiguous (collab := Reference.collaborators) Reference.x
       Contiguous Reference.sample_state =
       (Ok (MaybeOwned.is_borrowed b), Reference.sample_state)) /\
  (exists (r : Tensor) (s' : State),
     expect_contiguous (collab := Reference.collaborators) Reference.y
       Contiguous Reference.sample_state = (Ok (MaybeOwned.is_owned r), s') /\
     is_same r Reference.y = false).
Proof.
  split; [reflexivity|]. split; [reflexivity|]. split.
  - destruct (expect_contiguous_borrows_or_owns reference_materializes
                Reference.x Contiguous Reference.sample_state
                Reference.row_major_2x3 eq_refl) as (Hfast & _).
    destruct (Hfast eq_refl) as (b & Hb & _).
    by exists b.
  - destruct (expect_contiguous_borrows_or_owns reference_materializes
                Reference.y Contiguous Reference.sample_state
                Reference.transposed_3x2 eq_refl) as (_ & Hslow & _).
    destruct (Hslow eq_refl) as (r & s' & Hr & _ & _ & Hsame & _).
    by exists r, s'.
Defined.

(** ** Hooks *)

Section Hooks.
Variable W : Type.

Lemma run_hooks_app (before after : list (option (Hook W))) (grad : Tensor)
    (w : W) :
  run_hooks W (before ++ after) grad w =
    let '(g, w1) := run_hooks W before grad w in run_hooks W after g w1.
Proof.
  revert grad w. induction before as [|[hook|] rest IH]; intros grad w; simpl.
  - reflexivity.
  - destruct (hook grad w) as [res w']. apply IH.
  - apply IH.
Qed.

(** C10. The hook stored by [register_hook] for a function [fn] returning
    [void] is the wrapper that calls [fn] on the gradient and then returns
    the default-constructed handle, which is undefined; registration on a
    defined handle appends that wrapper and returns its position.  In a
    chain of hooks, the hooks after the wrapper are run on the gradient the
    wrapper was given: the wrapper replaces nothing, whatever [fn] does. *)
Theorem void_hook_replaces_nothing (fn : VoidHook W) :
  (forall (grad : Tensor) (w : W),
     void_hook_wrapper W fn grad w = (Tensor_default, fn grad w) /\
     defined (fst (void_hook_wrapper W fn grad w)) = false) /\
  (forall (self : Tensor) (a : positive)
          (table : gmap positive (list (option (Hook W)))),
     unsafeGetTensorImpl self = Some a ->
     let hooks := default [] (table !! a) in
     let stored := hooks ++ [Some (void_hook_wrapper W fn)] in
     register_hook_void W self fn table =
       (Ok (List.length hooks), <[a := stored]> table) /\
     stored !! List.length hooks = Some (Some (void_hook_wrapper W fn))) /\
  (forall (before after : list (option (Hook W))) (grad : Tensor) (w : W),
     run_hooks W (before ++ Some (void_hook_wrapper W fn) :: after) grad w =
       let '(g, w1) := run_hooks W before grad w in
       run_hooks W after g (fn g w1)).
Proof.
  split; [by intros grad w|]. split.
  - intros self a table Ha hooks stored. split.
    + unfold register_hook_void, _register_hook. by rewrite Ha.
    + unfold stored. rewrite lookup_app_r by done.
      by rewrite Nat.sub_diag.
  - intros before after grad w. rewrite run_hooks_app.
    destruct (run_hooks W before grad w) as [g w1]. reflexivity.
Qed.

End Hooks.

Lemma void_hook_on_samples :
  unsafeGetTensorImpl Reference.x = Some 1%positive /\
  register_hook_void nat Reference.x (fun _ n => S n) ∅ =
    (Ok 0%nat,
     <[1%positive := [Some (void_hook_wrapper nat (fun _ n => S n))]]> ∅).
Proof.
  split; [reflexivity|].
  destruct (void_hook_replaces_nothing nat (fun _ n => S n))
    as (_ & Hregister & _).
  exact (proj1 (Hregister Reference.x 1%positive ∅ eq_refl)).
Defined.

End Proofs.

(** * Further properties of the header *)

Module MoreProofs.
Import c10 ATen Members Proofs.

(** ** Owning handles: copy, assignment, reset *)

Lemma target_eta (o : intrusive_target) :
  mk_target (refcount_ o) (weakcount_ o) (object_ o) = o.
Proof. by destruct o. Qed.

Lemma state_eta (s : State) : mkState (heap s) (dispatched s) = s.
Proof. by destruct s. Qed.

(** The store after one more owner of [a], and after one owner less. *)
Lemma retain_live (p : intrusive_ptr.t) (h : gmap positive intrusive_target)
    (a : positive) (o : intrusive_target) :
  intrusive_ptr.target_ p = Some a -> h !! a = Some o ->
  intrusive_ptr.retain_ p h =
    <[a := mk_target (refcount_ o + 1) (weakcount_ o) (object_ o)]> h.
Proof. unfold intrusive_ptr.retain_. by intros -> ->. Qed.

Lemma reset_live (p : intrusive_ptr.t) (h : gmap positive intrusive_target)
    (a : positive) (o : intrusive_target) :
  intrusive_ptr.target_ p = Some a -> h !! a = Some o ->
  intrusive_ptr.reset_ p h =
    if (refcount_ o - 1 =? 0) && (weakcount_ o =? 0)
    then delete a h
    else <[a := mk_target (refcount_ o - 1) (weakcount_ o) (object_ o)]> h.
Proof. unfold intrusive_ptr.reset_. by intros -> ->. Qed.

Lemma retain_then_reset (p : intrusive_ptr.t)
    (h : gmap positive intrusive_target) (a : positive)
    (o : intrusive_target) :
  intrusive_ptr.target_ p = Some a -> h !! a = Some o -> 0 < refcount_ o ->
  intrusive_ptr.reset_ p (intrusive_ptr.retain_ p h) = h.
Proof.
  intros Hp Ho Hrc. rewrite (retain_live _ _ _ _ Hp Ho).
  rewrite (reset_live p _ a _ Hp (lookup_insert_eq _ _ _)). simpl.
  replace (refcount_ o + 1 - 1) with (refcount_ o) by lia.
  destruct (Z.eqb_spec (refcount_ o) 0); [lia|]. simpl.
  rewrite insert_insert_eq, target_eta. by apply insert_id.
Qed.

(** X1. An owning copy of a live handle and the destruction of that copy
    undo each other: the copy is the same as the original, the strong count
    is one higher while the copy lives, and after the copy is destroyed the
    state is the state before the copy. *)
Theorem copy_then_destroy_restores (h : Tensor) (s : State) (a : positive)
    (o : intrusive_target) :
  unsafeGetTensorImpl h = Some a -> heap s !! a = Some o ->
  0 < refcount_ o ->
  exists (c : Tensor) (s1 : State),
    Tensor_copy h s = (Ok c, s1) /\
    is_same c h = true /\
    use_count h s1 = use_count h s + 1 /\
    backing_object c s1 = Some (object_ o) /\
    Tensor_dtor c s1 = (Ok tt, s).
Proof.
  intros Ha Ho Hrc.
  destruct (Tensor_copy_bumps h s a o Ha Ho)
    as (s1 & Hcopy & Hcount & _ & _ & Hobj).
  exists h, s1. repeat split; try done.
  - apply is_same_refl.
  - rewrite Hobj. unfold backing_object. by rewrite Ha, Ho.
  - unfold Tensor_copy, intrusive_ptr.copy in Hcopy.
    injection Hcopy as _ <-.
    unfold Tensor_dtor. rewrite heap_set_heap.
    unfold unsafeGetTensorImpl, intrusive_ptr.get in Ha.
    rewrite (retain_then_reset _ _ _ _ Ha Ho Hrc).
    by destruct s.
Qed.

Lemma copy_then_destroy_on_x :
  unsafeGetTensorImpl Reference.x = Some 1%positive /\
  exists (c : Tensor) (s1 : State),
    Tensor_copy Reference.x Reference.sample_state = (Ok c, s1) /\
    Tensor_dtor c s1 = (Ok tt, Reference.sample_state).
Proof.
  split; [reflexivity|].
  destruct (copy_then_destroy_restores Reference.x Reference.sample_state
              1%positive (mk_target 1 0 Reference.row_major_2x3)
              eq_refl eq_refl eq_refl)
    as (c & s1 & Hcopy & _ & _ & _ & Hdtor).
  by exists c, s1.
Defined.

(** X2. Copy assignment [self = x] of live handles.  The assigned handle
    is the same as [x].  When [self] and [x] already share their object the
    state is left as it was, so that assigning a handle to itself is safe.
    Otherwise the object of [x] gains one owner, the old object of [self]
    loses one, being freed if that was its last owner and no weak holder
    remains, and no other object is touched. *)
Theorem copy_assignment_moves_one_unit (self x : Tensor) (s : State)
    (a0 a1 : positive) (o0 o1 : intrusive_target) :
  unsafeGetTensorImpl self = Some a0 -> heap s !! a0 = Some o0 ->
  unsafeGetTensorImpl x = Some a1 -> heap s !! a1 = Some o1 ->
  0 < refcount_ o0 ->
  exists (r : Tensor) (s' : State),
    assign_copy self x s = (Ok r, s') /\
    is_same r x = true /\
    dispatched s' = dispatched s /\
    (a0 = a1 -> s' = s) /\
    (a0 <> a1 ->
     heap s' !! a1 =
       Some (mk_target (refcount_ o1 + 1) (weakcount_ o1) (object_ o1)) /\
     heap s' !! a0 =
       (if (refcount_ o0 - 1 =? 0) && (weakcount_ o0 =? 0) then None
        else Some (mk_target (refcount_ o0 - 1) (weakcount_ o0)
                     (object_ o0))) /\
     forall b : positive,
       b <> a0 -> b <> a1 -> heap s' !! b = heap s !! b).
Proof.
  intros H0 Ho0 H1 Ho1 Hrc.
  unfold unsafeGetTensorImpl, intrusive_ptr.get in H0, H1.
  exists x, (set_heap (intrusive_ptr.reset_ (impl_ self)
                        (intrusive_ptr.retain_ (impl_ x) (heap s))) s).
  split; [by destruct x as [[p]]|]. split; [apply is_same_refl|].
  split; [reflexivity|]. split.
  - intros <-.
    assert (Hsame : intrusive_ptr.retain_ (impl_ x) (heap s) =
                    intrusive_ptr.retain_ (impl_ self) (heap s)).
    { unfold intrusive_ptr.retain_. by rewrite H0, H1. }
    rewrite Hsame, (retain_then_reset _ _ _ _ H0 Ho0 Hrc). by destruct s.
  - intros Hne. rewrite heap_set_heap, (retain_live _ _ _ _ H1 Ho1).
    assert (Hold : (<[a1 := mk_target (refcount_ o1 + 1) (weakcount_ o1)
                              (object_ o1)]> (heap s)) !! a0 = Some o0)
      by (by rewrite lookup_insert_ne).
    rewrite (reset_live _ _ _ _ H0 Hold).
    destruct ((refcount_ o0 - 1 =? 0) && (weakcount_ o0 =? 0)).
    + split; [|split].
      * rewrite lookup_delete_ne by done. apply lookup_insert_eq.
      * apply lookup_delete_eq.
      * intros b Hb0 Hb1.
        rewrite lookup_delete_ne by done. by rewrite lookup_insert_ne.
    + split; [|split].
      * rewrite lookup_insert_ne by done. apply lookup_insert_eq.
      * apply lookup_insert_eq.
      * intros b Hb0 Hb1. by rewrite !lookup_insert_ne.
Qed.

Lemma copy_assignment_on_samples :
  (exists (r : Tensor) (s' : State),
     assign_copy Reference.x Reference.x Reference.sample_state = (Ok r, s') /\
     s' = Reference.sample_state) /\
  (exists (r : Tensor) (s' : State),
     assign_copy Reference.x Reference.y Reference.sample_state = (Ok r, s') /\
     heap s' !! 1%positive = None /\
     use_count Reference.y s' = 2).
Proof.
  split.
  - destruct (copy_assignment_moves_one_unit Reference.x Reference.x
                Reference.sample_state 1%positive 1%positive
                (mk_target 1 0 Reference.row_major_2x3)
                (mk_target 1 0 Reference.row_major_2x3)
                eq_refl eq_refl eq_refl eq_refl eq_refl)
      as (r & s' & Hr & _ & _ & Hself & _).
    exists r, s'. split; [exact Hr|]. by apply Hself.
  - destruct (copy_assignment_moves_one_unit Reference.x Reference.y
                Reference.sample_state 1%positive 2%positive
                (mk_target 1 0 Reference.row_major_2x3)
                (mk_target 1 0 Reference.transposed_3x2)
                eq_refl eq_refl eq_refl eq_refl eq_refl)
      as (r & s' & Hr & _ & _ & _ & Hother).
    destruct (Hother ltac:(discriminate)) as (Hy & Hx & _).
    exists r, s'. split; [exact Hr|]. split; [exact Hx|].
    unfold use_count, intrusive_ptr.use_count. simpl. by rewrite Hy.
Defined.

(** X3. [reset()] on a live handle leaves the handle undefined and takes
    exactly one unit off the strong count of its object, which is freed
    when that was the last unit and no weak holder remains; every other
    object is as before, the effect on the state is that of the destructor,
    and a second [reset()] changes nothing. *)
Theorem reset_releases_once (h : Tensor) (s : State) (a : positive)
    (o : intrusive_target) :
  unsafeGetTensorImpl h = Some a -> heap s !! a = Some o ->
  exists (r : Tensor) (s' : State),
    reset h s = (Ok r, s') /\
    defined r = false /\
    heap s' !! a =
      (if (refcount_ o - 1 =? 0) && (weakcount_ o =? 0) then None
       else Some (mk_target (refcount_ o - 1) (weakcount_ o) (object_ o))) /\
    (forall b : positive, b <> a -> heap s' !! b = heap s !! b) /\
    snd (Tensor_dtor h s) = s' /\
    reset r s' = (Ok r, s').
Proof.
  intros Ha Ho. unfold unsafeGetTensorImpl, intrusive_ptr.get in Ha.
  exists Tensor_default,
    (set_heap (intrusive_ptr.reset_ (impl_ h) (heap s)) s).
  split; [reflexivity|]. split; [reflexivity|].
  assert (Hagain : forall s0 : State, reset Tensor_default s0 =
                                      (Ok Tensor_default, s0))
    by (by intros []).
  split; [|split; [|split; [reflexivity|apply Hagain]]];
    rewrite heap_set_heap, (reset_live _ _ _ _ Ha Ho);
    destruct ((refcount_ o - 1 =? 0) && (weakcount_ o =? 0)).
  - apply lookup_delete_eq.
  - apply lookup_insert_eq.
  - intros b Hb. by rewrite lookup_delete_ne.
  - intros b Hb. by rewrite lookup_insert_ne.
Qed.

Lemma reset_on_x :
  unsafeGetTensorImpl Reference.x = Some 1%positive /\
  exists (r : Tensor) (s' : State),
    reset Reference.x Reference.sample_state = (Ok r, s') /\
    defined r = false /\
    heap s' !! 1%positive = None.
Proof.
  split; [reflexivity|].
  destruct (reset_releases_once Reference.x Reference.sample_state 1%positive
              (mk_target 1 0 Reference.row_major_2x3) eq_refl eq_refl)
    as (r & s' & Hr & Hdef & Hfree & _).
  by exists r, s'.
Defined.

(** ** Releasing, re-wrapping and borrowing *)

(** X4. Giving up the reference of a handle, as a raw pointer
    ([unsafeReleaseTensorImpl]) or as an intrusive pointer
    ([unsafeReleaseIntrusivePtr]), leaves the handle undefined and every
    count as it was, so that the later destruction of the handle does
    nothing.  Wrapping the intrusive pointer released by a defined handle
    in a handle again gives back a handle that is the same as the original
    one, with the same count, in the same state. *)
Theorem release_then_rewrap (h : Tensor) (s : State) :
  exists rest : Tensor,
    unsafeReleaseTensorImpl h s = (Ok (unsafeGetTensorImpl h, rest), s) /\
    unsafeReleaseIntrusivePtr h = (getIntrusivePtr h, rest) /\
    defined rest = false /\
    Tensor_dtor rest s = (Ok tt, s) /\
    (defined h = true ->
     exists r : Tensor,
       Tensor_from_impl (fst (unsafeReleaseIntrusivePtr h)) s = (Ok r, s) /\
       is_same r h = true /\
       use_count r s = use_count h s).
Proof.
  exists Tensor_default. destruct h as [[p]], s as [hp calls];
    destruct p as [a|]; repeat split; try discriminate.
  intros _. eexists. split; [reflexivity|]. split; [|reflexivity].
  apply is_same_refl.
Qed.

Lemma release_then_rewrap_on_samples :
  defined Reference.x = true /\
  exists r : Tensor,
    Tensor_from_impl (fst (unsafeReleaseIntrusivePtr Reference.x))
      Reference.sample_state = (Ok r, Reference.sample_state) /\
    is_same r Reference.x = true.
Proof.
  split; [reflexivity|].
  destruct (release_then_rewrap Reference.x Reference.sample_state)
    as (rest & _ & _ & _ & _ & Hdef).
  destruct (Hdef eq_refl) as (r & Hr & Hsame & _). by exists r.
Defined.

(** X5. What the comment of [createBorrow] says: on a defined handle the
    borrow made with the private [unsafe_borrow_t] constructor is the
    borrow one would get by reclaiming [from.unsafeGetTensorImpl()] through
    the public constructor, result and state alike: the null check of the
    public constructor passes, and no count is touched on either way. *)
Theorem createBorrow_agrees_with_public_constructor (from : Tensor)
    (s : State) :
  defined from = true ->
  createBorrow_by_public_constructor from s =
    MaybeOwnedTraits.createBorrow from s /\
  exists b : Tensor,
    MaybeOwnedTraits.createBorrow from s = (Ok b, s) /\
    is_same b from = true.
Proof.
  destruct from as [[p]], s as [hp calls]; destruct p as [a|];
    try discriminate.
  intros _. split; [reflexivity|]. eexists. split; [reflexivity|].
  apply is_same_refl.
Qed.

Lemma createBorrow_on_samples :
  defined Reference.x = true /\
  createBorrow_by_public_constructor Reference.x Reference.sample_state =
    MaybeOwnedTraits.createBorrow Reference.x Reference.sample_state.
Proof.
  split; [reflexivity|].
  apply (createBorrow_agrees_with_public_constructor Reference.x
           Reference.sample_state).
  reflexivity.
Defined.

(** X6. [assignBorrow] re-points a borrowed handle without a change of any
    count, whatever the handle borrowed before: the state is left as it
    was and the assigned handle is the same as [rhs].  The release that
    comes first is what makes it so: a move assignment onto the live [lhs]
    as it stands would take a unit off the object of [lhs]. *)
Theorem assignBorrow_leaves_every_count (lhs rhs : Tensor) (s : State) :
  (exists r : Tensor,
     MaybeOwnedTraits.assignBorrow lhs rhs s = (Ok r, s) /\
     is_same r rhs = true /\
     MaybeOwnedTraits.destroyBorrow r s = (Ok Tensor_default, s)) /\
  forall (a : positive) (o : intrusive_target),
    unsafeGetTensorImpl lhs = Some a -> heap s !! a = Some o ->
    heap (snd (assign_move lhs rhs s)) !! a <> heap s !! a.
Proof.
  split.
  - exists rhs. split; [|split; [apply is_same_refl|]].
    + by destruct lhs as [[l]], rhs as [[r]], s as [hp calls].
    + by destruct rhs as [[r]], s as [hp calls].
  - intros a o Ha Ho. unfold unsafeGetTensorImpl, intrusive_ptr.get in Ha.
    unfold assign_move. simpl. rewrite (reset_live _ _ _ _ Ha Ho), Ho.
    destruct ((refcount_ o - 1 =? 0) && (weakcount_ o =? 0)).
    + by rewrite lookup_delete_eq.
    + rewrite lookup_insert_eq. intros [= Heq].
      apply (f_equal refcount_) in Heq. simpl in Heq. lia.
Qed.

Lemma assignBorrow_on_samples :
  unsafeGetTensorImpl Reference.x = Some 1%positive /\
  heap (snd (assign_move Reference.x Reference.y Reference.sample_state))
    !! 1%positive <> heap Reference.sample_state !! 1%positive.
Proof.
  split; [reflexivity|].
  destruct (assignBorrow_leaves_every_count Reference.x Reference.y
              Reference.sample_state) as (_ & Hmove).
  exact (Hmove 1%positive (mk_target 1 0 Reference.row_major_2x3)
           eq_refl eq_refl).
Defined.

(** X7. [borrow_from_optional_tensor] never touches a count: the state
    after the call is the state before it, and so is the state after the
    view it returned is destroyed.  On an engaged optional the view is in
    borrowed mode and refers to the handle held; on an empty one it is in
    owned mode around an undefined handle. *)
Theorem borrow_from_optional_tensor_is_free (opt : option Tensor)
    (s : State) :
  exists v : MaybeOwned.t,
    borrow_from_optional_tensor opt s = (Ok v, s) /\
    MaybeOwned.destroy v s = (Ok tt, s) /\
    match opt with
    | Some x =>
        MaybeOwned.isBorrowed v = true /\ is_same (MaybeOwned.get v) x = true
    | None =>
        MaybeOwned.isBorrowed v = false /\ defined (MaybeOwned.get v) = false
    end.
Proof.
  destruct opt as [x|].
  - exists (MaybeOwned.is_borrowed x). split; [|split].
    + by destruct x as [[p]], s as [hp calls].
    + by destruct x as [[p]], s as [hp calls].
    + split; [reflexivity|apply is_same_refl].
  - exists (MaybeOwned.is_owned Tensor_default). split; [|split].
    + reflexivity.
    + by destruct s as [hp calls].
    + by split.
Qed.

(** ** The whole range of axis indices *)

Lemma maybe_wrap_dim_in_range (d rank : Z) :
  - rank <= d < rank -> maybe_wrap_dim d rank false = Ok (d mod rank).
Proof.
  intros H. destruct (Z.ltb_spec d 0) as [Hneg|Hpos].
  - replace d with ((d + rank) - rank) at 1 by lia.
    rewrite maybe_wrap_dim_negative by lia. f_equal.
    rewrite <- (Z.mod_small (d + rank) rank) by lia.
    rewrite <- (Z_mod_plus_full d 1 rank). f_equal. lia.
  - rewrite maybe_wrap_dim_nonneg by lia. by rewrite Z.mod_small by lia.
Qed.

Lemma maybe_wrap_dim_out_of_range (d rank : Z) :
  0 <= rank -> d < - rank \/ rank <= d ->
  maybe_wrap_dim d rank false =
    Err (Exn IndexOutOfRange "Dimension out of range").
Proof.
  intros Hr H. unfold maybe_wrap_dim. rewrite andb_false_r.
  destruct (Z.ltb_spec d 0).
  - destruct (Z.leb_spec 0 (d + rank)); [lia|]. reflexivity.
  - destruct (Z.ltb_spec d rank); [lia|]. by rewrite andb_false_r.
Qed.

(** X9. For a defined handle of rank [r], [size(d)] answers exactly for
    the indices [d] with [-r <= d < r], with the size of axis [d mod r],
    and fails with IndexOutOfRange for every other index, however far out;
    in both cases the state is left as it was.  [stride(d)] fails for the
    same indices, and for the others answers with the stride of axis
    [d mod r] when the object has as many strides as sizes. *)
Theorem size_and_stride_index_range (h : Tensor) (s : State)
    (impl : TensorImpl.t) (d : Z) :
  backing_object h s = Some impl ->
  let r := TensorImpl.dim impl in
  (- r <= d < r ->
   (exists v : Z,
      TensorImpl.sizes impl !! Z.to_nat (d mod r) = Some v /\
      size h d s = (Ok v, s)) /\
   (List.length (TensorImpl.strides impl) =
      List.length (TensorImpl.sizes impl) ->
    exists v : Z,
      TensorImpl.strides impl !! Z.to_nat (d mod r) = Some v /\
      stride h d s = (Ok v, s))) /\
  (d < - r \/ r <= d ->
   (exists msg, size h d s = (Err (Exn IndexOutOfRange msg), s)) /\
   (exists msg, stride h d s = (Err (Exn IndexOutOfRange msg), s))).
Proof.
  intros H r.
  assert (Hr : 0 <= r) by (unfold r, TensorImpl.dim; lia).
  rewrite (size_unfold _ _ _ _ H), (stride_unfold _ _ _ _ H). fold r.
  split.
  - intros Hd. rewrite (maybe_wrap_dim_in_range _ _ Hd).
    assert (Hm : 0 <= d mod r < r) by (apply Z.mod_pos_bound; lia).
    split.
    + by apply ArrayRef_at_in_range.
    + intros Hlen. apply ArrayRef_at_in_range. by rewrite Hlen.
  - intros Hd. rewrite (maybe_wrap_dim_out_of_range _ _ Hr Hd).
    split; by eexists.
Qed.

Lemma size_index_range_on_2x3 :
  backing_object Reference.x Reference.sample_state =
    Some Reference.row_major_2x3 /\
  (exists v : Z,
     size Reference.x (-2) Reference.sample_state =
       (Ok v, Reference.sample_state)) /\
  (exists msg,
     size Reference.x 7 Reference.sample_state =
       (Err (Exn IndexOutOfRange msg), Reference.sample_state)).
Proof.
  split; [reflexivity|]. split.
  - destruct (size_and_stride_index_range Reference.x Reference.sample_state
                Reference.row_major_2x3 (-2) eq_refl) as (Hin & _).
    destruct Hin as ((v & _ & Hv) & _).
    { vm_compute. split; [discriminate|reflexivity]. }
    by exists v.
  - destruct (size_and_stride_index_range Reference.x Reference.sample_state
                Reference.row_major_2x3 7 eq_refl) as (_ & Hout).
    apply Hout. right. vm_compute. discriminate.
Defined.

(** ** Memory-format suggestion and contiguity *)

Section Suggestion.
Context {collab : Collaborators}.

(** X10. The exact-match flag of [suggest_memory_format] can only take a
    channels-last answer back: for a defined handle, the answer with the
    flag set is the answer without it, or Contiguous.  Neither answer is
    ever Preserve, and for an mkldnn or sparse object both are
    Contiguous. *)
Theorem exact_match_only_withdraws (h : Tensor) (s : State)
    (impl : TensorImpl.t) :
  backing_object h s = Some impl ->
  exists loose exact : MemoryFormat,
    suggest_memory_format h false s = (Ok loose, s) /\
    suggest_memory_format h true s = (Ok exact, s) /\
    (exact = loose \/ exact = Contiguous) /\
    loose <> Preserve /\ exact <> Preserve /\
    (TensorImpl.is_mkldnn impl = true \/ TensorImpl.is_sparse impl = true ->
     loose = Contiguous /\ exact = Contiguous).
Proof.
  intros H. eexists _, _.
  split; [by apply suggest_memory_format_unfold|].
  split; [by apply suggest_memory_format_unfold|].
  destruct (TensorImpl.is_mkldnn impl), (TensorImpl.is_sparse impl),
    (TensorImpl.is_strides_like_channels_last impl),
    (TensorImpl.is_strides_like_channels_last_3d impl); simpl;
    repeat match goal with
           | |- context [IntArrayRef_eqb ?a ?b] =>
               destruct (IntArrayRef_eqb a b)
           end;
    intuition congruence.
Qed.

(** The copy that [contiguous] returns on its fast path, and its
    destruction. *)
Lemma copy_round_trip (h : Tensor) (s : State) (a : positive)
    (o : intrusive_target) :
  unsafeGetTensorImpl h = Some a -> heap s !! a = Some o ->
  0 < refcount_ o ->
  let s1 := set_heap (intrusive_ptr.retain_ (impl_ h) (heap s)) s in
  Tensor_copy h s = (Ok h, s1) /\
  use_count h s1 = use_count h s + 1 /\
  Tensor_dtor h s1 = (Ok tt, s).
Proof.
  intros Ha Ho Hrc s1.
  unfold unsafeGetTensorImpl, intrusive_ptr.get in Ha.
  split; [by destruct h as [[p]]|]. split.
  - unfold s1, use_count, intrusive_ptr.use_count.
    rewrite Ha, heap_set_heap, (retain_live _ _ _ _ Ha Ho), Ho.
    by rewrite lookup_insert_eq.
  - unfold s1, Tensor_dtor. rewrite heap_set_heap.
    rewrite (retain_then_reset _ _ _ _ Ha Ho Hrc). by destruct s.
Qed.

(** X11. What the comment of [expect_contiguous] promises over
    [contiguous], on a live handle that already has the layout.  With
    [contiguous] the strong count is one higher for as long as the result
    lives and comes back when the result is destroyed; with
    [expect_contiguous] the state is never changed, neither by the call
    nor by the destruction of the view, and the view still refers to the
    object of the handle. *)
Theorem expect_contiguous_saves_a_count_round_trip (h : Tensor)
    (f : MemoryFormat) (s : State) (a : positive) (o : intrusive_target) :
  unsafeGetTensorImpl h = Some a -> heap s !! a = Some o ->
  0 < refcount_ o ->
  TensorImpl.is_contiguous (object_ o) f = true ->
  (exists (r : Tensor) (s1 : State),
     contiguous h f s = (Ok r, s1) /\
     use_count h s1 = use_count h s + 1 /\
     s1 <> s /\
     Tensor_dtor r s1 = (Ok tt, s)) /\
  (exists v : MaybeOwned.t,
     expect_contiguous h f s = (Ok v, s) /\
     is_same (MaybeOwned.get v) h = true /\
     MaybeOwned.destroy v s = (Ok tt, s)).
Proof.
  intros Ha Ho Hrc Hf.
  assert (Hb : backing_object h s = Some (object_ o))
    by (unfold backing_object; by rewrite Ha, Ho).
  assert (Hc : is_contiguous h f s = (Ok true, s))
    by (read_fields Hb; by rewrite Hf).
  destruct (copy_round_trip h s a o Ha Ho Hrc) as (Hcopy & Hcount & Hdtor).
  split.
  - eexists _, _. split; [|split; [exact Hcount|split; [|exact Hdtor]]].
    + unfold contiguous, bind. rewrite Hc. exact Hcopy.
    + intros Heq. rewrite Heq in Hcount. lia.
  - exists (MaybeOwned.is_borrowed h). split; [|split].
    + unfold expect_contiguous, bind at 1. rewrite Hc.
      by destruct h as [[p]], s as [hp calls].
    + apply is_same_refl.
    + by destruct h as [[p]], s as [hp calls].
Qed.

End Suggestion.

Lemma exact_match_on_channels_last :
  backing_object Reference.nhwc Reference.sample_state =
    Some Reference.channels_last_1x2x3x4 /\
  exists loose exact : MemoryFormat,
    suggest_memory_format (collab := Reference.collaborators) Reference.nhwc
      false Reference.sample_state = (Ok loose, Reference.sample_state) /\
    suggest_memory_format (collab := Reference.collaborators) Reference.nhwc
      true Reference.sample_state = (Ok exact, Reference.sample_state) /\
    (exact = loose \/ exact = Contiguous).
Proof.
  split; [reflexivity|].
  destruct (exact_match_only_withdraws (collab := Reference.collaborators)
              Reference.nhwc Reference.sample_state
              Reference.channels_last_1x2x3x4 eq_refl)
    as (loose & exact & Hl & He & Hor & _).
  by exists loose, exact.
Defined.

Lemma expect_contiguous_round_trip_on_x :
  unsafeGetTensorImpl Reference.x = Some 1%positive /\
  exists v : MaybeOwned.t,
    expect_contiguous (collab := Reference.collaborators) Reference.x
      Contiguous Reference.sample_state = (Ok v, Reference.sample_state) /\
    MaybeOwned.destroy v Reference.sample_state =
      (Ok tt, Reference.sample_state).
Proof.
  split; [reflexivity|].
  destruct (expect_contiguous_saves_a_count_round_trip
              (collab := Reference.collaborators) Reference.x Contiguous
              Reference.sample_state 1%positive
              (mk_target 1 0 Reference.row_major_2x3)
              eq_refl eq_refl eq_refl eq_refl)
    as (_ & v & Hv & _ & Hd).
  by exists v.
Defined.

(** ** Making a handle for a new object *)

Lemma make_intrusive_fresh (impl : TensorImpl.t)
    (h : gmap positive intrusive_target) :
  h !! fresh (dom h) = None.
Proof. apply not_elem_of_dom, is_fresh. Qed.

(** X12. [make_tensor] always succeeds, the null check of the constructor
    never firing on a pointer fresh from [make_intrusive].  The handle it
    returns is defined and is the only owner of an object that did not
    exist before; it is the same as no handle that was live, no live
    object or count is changed, and nothing is forwarded.  Destroying the
    handle frees the object again and brings back the state before the
    call. *)
Theorem make_tensor_owns_a_fresh_object (impl : TensorImpl.t) (s : State) :
  exists (r : Tensor) (s' : State),
    make_tensor impl s = (Ok r, s') /\
    defined r = true /\
    backing_object r s = None /\
    backing_object r s' = Some impl /\
    use_count r s' = 1 /\
    dispatched s' = dispatched s /\
    (forall (h : Tensor) (other : TensorImpl.t),
       backing_object h s = Some other ->
       is_same r h = false /\
       backing_object h s' = Some other /\
       use_count h s' = use_count h s) /\
    Tensor_dtor r s' = (Ok tt, s).
Proof.
  pose proof (make_intrusive_fresh impl (heap s)) as Hfresh.
  set (a := fresh (dom (heap s))) in *.
  exists (mkTensor (intrusive_ptr.mk (Some a))),
    (set_heap (<[a := mk_target 1 0 impl]> (heap s)) s).
  split; [reflexivity|]. split; [reflexivity|].
  split; [unfold backing_object; simpl; by rewrite Hfresh|].
  split; [unfold backing_object; simpl; by rewrite lookup_insert_eq|].
  split; [unfold use_count, intrusive_ptr.use_count; simpl;
          by rewrite lookup_insert_eq|].
  split; [reflexivity|]. split.
  - intros h other (b & o & Hb & Ho & Hobj)%backing_object_live.
    assert (Hne : a <> b) by (intros ->; congruence).
    unfold unsafeGetTensorImpl, intrusive_ptr.get in Hb.
    split; [|split].
    + unfold is_same, intrusive_ptr.eqb. simpl. rewrite Hb.
      by apply Pos.eqb_neq.
    + unfold backing_object, unsafeGetTensorImpl, intrusive_ptr.get.
      rewrite Hb. simpl. rewrite lookup_insert_ne by done.
      rewrite Ho. simpl. by rewrite Hobj.
    + unfold use_count, intrusive_ptr.use_count. rewrite Hb. simpl.
      by rewrite lookup_insert_ne.
  - unfold Tensor_dtor. rewrite heap_set_heap.
    rewrite (reset_live (intrusive_ptr.mk (Some a)) _ a _ eq_refl
               (lookup_insert_eq _ _ _)). simpl.
    rewrite delete_insert_id by done. by destruct s.
Qed.

Section Wrapping.
Context {collab : Collaborators}.

(** X13. [wrap_tensor_impl] on a pointer fresh from [make_intrusive] does
    not leak.  When [enforce_invariants] throws, the exception of the
    check comes out and the new object has been freed again: the state is
    the state before the allocation.  When the check passes, the handle
    returned is the only owner of the new object. *)
Theorem wrap_tensor_impl_frees_a_rejected_object (impl : TensorImpl.t)
    (s : State) :
  let p := fst (make_intrusive impl (heap s)) in
  let s1 := set_heap (snd (make_intrusive impl (heap s))) s in
  (forall e : exception,
     invariants_hold (mkTensor p) (heap s1) = Err e ->
     wrap_tensor_impl p s1 = (Err e, s)) /\
  (invariants_hold (mkTensor p) (heap s1) = Ok tt ->
   wrap_tensor_impl p s1 = (Ok (mkTensor p), s1) /\
   use_count (mkTensor p) s1 = 1 /\
   backing_object (mkTensor p) s1 = Some impl).
Proof.
  pose proof (make_intrusive_fresh impl (heap s)) as Hfresh.
  unfold make_intrusive. simpl.
  set (a := fresh (dom (heap s))) in *.
  split.
  - intros e He.
    unfold wrap_tensor_impl, bind, unwinding, enforce_invariants, ret. simpl.
    rewrite He. simpl.
    rewrite (reset_live (intrusive_ptr.mk (Some a)) _ a _ eq_refl
               (lookup_insert_eq _ _ _)). simpl.
    rewrite delete_insert_id by done. by destruct s.
  - intros Hok. split; [|split].
    + unfold wrap_tensor_impl, bind, unwinding, enforce_invariants, ret.
      simpl. by rewrite Hok.
    + unfold use_count, intrusive_ptr.use_count. simpl.
      by rewrite lookup_insert_eq.
    + unfold backing_object. simpl. by rewrite lookup_insert_eq.
Qed.

End Wrapping.

Lemma wrap_tensor_impl_on_rejected_sample :
  wrap_tensor_impl (collab := Reference.collaborators)
    (fst (make_intrusive Reference.sparse_2x3 (heap Reference.sample_state)))
    (set_heap
       (snd (make_intrusive Reference.sparse_2x3
               (heap Reference.sample_state)))
       Reference.sample_state) =
    (Err (Exn InvariantViolation "sizes and strides disagree"),
     Reference.sample_state).
Proof.
  apply (wrap_tensor_impl_frees_a_rejected_object
           (collab := Reference.collaborators) Reference.sparse_2x3
           Reference.sample_state).
  vm_compute. reflexivity.
Defined.

(** ** Accessors *)

Section AccessorProofs.
Context {pointers : DataPointers}.

Lemma accessor_unfold (N : positive) (h : Tensor) (s : State)
    (impl : TensorImpl.t) :
  backing_object h s = Some impl ->
  accessor N h s =
    if TensorImpl.dim impl =? Z.pos N then
      match data_ptr h (heap s) with
      | Ok p =>
          (Ok (mkAccessor p (TensorImpl.sizes impl) (TensorImpl.strides impl)),
           s)
      | Err e => (Err e, s)
      end
    else
      (Err (Exn InvalidArgument (accessor_message N (TensorImpl.dim impl))),
       s).
Proof.
  intros H. unfold accessor, bind at 1. read_fields H.
  destruct (TensorImpl.dim impl =? Z.pos N); [|reflexivity].
  unfold TORCH_CHECK, bind, ret, typed_data_ptr.
  destruct (data_ptr h (heap s)); [|reflexivity].
  by read_fields H.
Qed.

(** X14. [accessor<T, N>()] accepts a defined handle exactly when its rank
    is [N].  On any other rank it throws, naming the expected and the
    actual rank, before the data pointer is asked for, so whatever
    [data_ptr<T>()] would have done.  On rank [N] it gives what
    [data_ptr<T>()] gives: its exception, or an accessor over that pointer
    with the sizes and strides of the object, [N] sizes in all.  The state
    is unchanged in every case. *)
Theorem accessor_requires_rank (N : positive) (h : Tensor) (s : State)
    (impl : TensorImpl.t) :
  backing_object h s = Some impl ->
  (TensorImpl.dim impl <> Z.pos N ->
   accessor N h s =
     (Err (Exn InvalidArgument (accessor_message N (TensorImpl.dim impl))),
      s)) /\
  (TensorImpl.dim impl = Z.pos N ->
   List.length (TensorImpl.sizes impl) = Pos.to_nat N /\
   match data_ptr h (heap s) with
   | Ok p =>
       accessor N h s =
         (Ok (mkAccessor p (TensorImpl.sizes impl) (TensorImpl.strides impl)),
          s)
   | Err e => accessor N h s = (Err e, s)
   end).
Proof.
  intros H. rewrite (accessor_unfold N h s impl H). split.
  - intros Hne. by destruct (Z.eqb_spec (TensorImpl.dim impl) (Z.pos N)).
  - intros Heq. split.
    + unfold TensorImpl.dim in Heq. lia.
    + rewrite Heq, Z.eqb_refl. by destruct (data_ptr h (heap s)).
Qed.

End AccessorProofs.

Lemma accessor_on_samples :
  backing_object Reference.x Reference.sample_state =
    Some Reference.row_major_2x3 /\
  accessor (pointers := sample_pointers) 3 Reference.x Reference.sample_state =
    (Err (Exn InvalidArgument
            "TensorAccessor expected 3 dims but tensor has 2"),
     Reference.sample_state) /\
  accessor (pointers := sample_pointers) 2 Reference.x Reference.sample_state =
    (Ok (mkAccessor 0 [2; 3] [3; 1]), Reference.sample_state).
Proof.
  split; [reflexivity|]. split.
  - apply (accessor_requires_rank (pointers := sample_pointers) 3 Reference.x
             Reference.sample_state Reference.row_major_2x3 eq_refl).
    discriminate.
  - destruct (accessor_requires_rank (pointers := sample_pointers) 2
                Reference.x Reference.sample_state Reference.row_major_2x3
                eq_refl) as (_ & Hrank).
    exact (proj2 (Hrank eq_refl)).
Defined.

(** ** The owned view and its copy *)

Section OwnedView.
Context {collab : Collaborators}.
Hypothesis dispatcher_materializes : materializes_conforming collab.

(** X15. On a defined handle that does not have the layout,
    [expect_contiguous] returns a view in owned mode that is the only
    owner of the materialized copy, and the destruction of the view
    releases that copy: its strong count is zero afterwards.  The handle
    the call was made on keeps its object and its count throughout, and
    exactly one call has been forwarded. *)
Theorem owned_view_releases_its_copy (h : Tensor) (f : MemoryFormat)
    (s : State) (impl : TensorImpl.t) :
  backing_object h s = Some impl ->
  TensorImpl.is_contiguous impl f = false ->
  exists (r : Tensor) (s1 s2 : State),
    expect_contiguous h f s = (Ok (MaybeOwned.is_owned r), s1) /\
    use_count r s1 = 1 /\
    MaybeOwned.destroy (MaybeOwned.is_owned r) s1 = (Ok tt, s2) /\
    use_count r s2 = 0 /\
    backing_object h s2 = Some impl /\
    use_count h s2 = use_count h s /\
    dispatched s2 = dispatched s ++ [call_contiguous h f].
Proof.
  intros Hb Hf.
  assert (Hc : is_contiguous h f s = (Ok false, s))
    by (read_fields Hb; by rewrite Hf).
  destruct (dispatch_contiguous_fresh dispatcher_materializes h f s impl
              Hb Hf) as (a' & o' & Hd & Hfresh & Hrc & _).
  destruct (backing_object_live _ _ _ Hb) as (a & o & Ha & Ho & Himpl).
  assert (Hne : a' <> a) by (intros ->; congruence).
  unfold unsafeGetTensorImpl, intrusive_ptr.get in Ha.
  set (r := mkTensor (intrusive_ptr.mk (Some a'))).
  set (s1 := mkState (<[a' := o']> (heap s))
               (dispatched s ++ [call_contiguous h f])).
  exists r, s1, (set_heap (intrusive_ptr.reset_ (impl_ r) (heap s1)) s1).
  split; [|split; [|split; [reflexivity|]]].
  - unfold expect_contiguous, bind at 1. rewrite Hc.
    unfold bind. by rewrite Hd.
  - unfold use_count, intrusive_ptr.use_count. simpl.
    by rewrite lookup_insert_eq.
  - rewrite (reset_live (impl_ r) (heap s1) a' o' eq_refl
               (lookup_insert_eq _ _ _)).
    rewrite Hrc. simpl.
    unfold use_count, intrusive_ptr.use_count, backing_object,
      unsafeGetTensorImpl, intrusive_ptr.get.
    rewrite Ha. simpl.
    destruct (weakcount_ o' =? 0).
    + rewrite lookup_delete_eq, lookup_delete_ne, lookup_insert_ne by done.
      rewrite Ho. simpl. by rewrite Himpl.
    + rewrite lookup_insert_eq, !lookup_insert_ne by done.
      rewrite Ho. simpl. by rewrite Himpl.
Qed.

End OwnedView.

Lemma owned_view_on_y :
  backing_object Reference.y Reference.sample_state =
    Some Reference.transposed_3x2 /\
  exists (r : Tensor) (s1 s2 : State),
    expect_contiguous (collab := Reference.collaborators) Reference.y
      Contiguous Reference.sample_state = (Ok (MaybeOwned.is_owned r), s1) /\
    MaybeOwned.destroy (MaybeOwned.is_owned r) s1 = (Ok tt, s2) /\
    use_count r s2 = 0.
Proof.
  split; [reflexivity|].
  destruct (owned_view_releases_its_copy reference_materializes Reference.y
              Contiguous Reference.sample_state Reference.transposed_3x2
              eq_refl eq_refl)
    as (r & s1 & s2 & Hr & _ & Hd & Hz & _).
  by exists r, s1, s2.
Defined.

End MoreProofs.
